(** * The watchdog store (main-server/store/store.go)

    A shallow embedding of the in-memory store of the ping-monitoring
    server, and the properties of its operations.

    Conventions of the embedding.
    - Go maps are stdpp [gmap]s (allocated, non-nil maps); reading an absent
      key yields the zero value of the element type, written out with
      [default].
    - [map[string]*User]: every username owns its own [User] object (AddUser
      is the only operation that stores a pointer and it allocates with
      newUser(); the map Init supplies is taken to be of the same shape, with
      no nil and no shared pointer), so the pointee is kept in the map and a
      field update through the pointer is an insert at that key.
    - [int64] values are [Z] with the wrap-around of Go's [++] and [--]
      written out ([wrap64]).
    - The store runs the body of every operation under one reader/writer
      lock; the embedding is of one caller at a time, so [withReadLock] and
      [withWriteLock] only run their body.
    - A channel is the sequence of names sent on it so far, oldest first; a
      send appends at the end.  The receiving end belongs to the poller, which
      is not part of the store: a send that finds the buffer full waits for
      the poller and then completes, and the embedding takes the poller to
      keep receiving. *)

From Stdlib Require Import ZArith Lia.
From stdpp Require Import gmap strings list fin_maps.

Local Open Scope string_scope.
Local Open Scope list_scope.
Local Open Scope nat_scope.

(** ** Data model *)

(** Modelled from the spec: the declaration of [PingRet] is not part of
    store.go.  The spec gives [{Time, Ping}], both strings, which is how
    defaultPingRet builds one and how AppendPingRet compares the Times. *)
Record PingRet := mkPingRet { Time : string; Ping : string }.

Global Instance PingRet_eq_dec : EqDecision PingRet.
Proof. solve_decision. Defined.

(** Modelled from the spec: the declaration of [User] is not part of
    store.go.  The spec gives [{Username, Password, MonitorServers}]; the code
    uses [Password] as a string and [MonitorServers] as a [map[string]bool]. *)
Record User := mkUser {
  Username : string;
  Password : string;
  MonitorServers : gmap string bool
}.

(** Modelled from the spec: [newUser()] is not part of store.go.  The spec
    says AddUser "creates a User with empty monitor set"; the fields it does
    not mention have Go's zero value. *)
Definition newUser : User :=
  {| Username := ""; Password := ""; MonitorServers := ∅ |}.

Abbreviation Servers := (gmap string (gmap string (list PingRet))).
Abbreviation Users := (gmap string User).

Definition _DEFAULT_PING : string := "0.000".

Definition defaultPingRet (t : string) : PingRet :=
  {| Time := t; Ping := _DEFAULT_PING |}.

(** Error values by origin: the package-level sentinel, the values the store
    makes with [fmt.Errorf] (with their text), and the values the storage
    engine hands back, which the store passes on as they are. *)
Inductive error :=
| _ERROR_INCORRECT_PASSWORD
| Errorf (msg : string)
| EngineError (e : string).

Global Instance error_eq_dec : EqDecision error.
Proof. solve_decision. Defined.

(** What a Go call can do: return, or stop with a run-time panic
    (index out of range). *)
Inductive outcome (A : Type) :=
| Done (a : A)
| Panic.
Arguments Done {A} a.
Arguments Panic {A}.

Global Instance outcome_ret : MRet outcome := λ _ a, Done a.
Global Instance outcome_bind : MBind outcome := λ _ _ k m,
  match m with
  | Done a => k a
  | Panic => Panic
  end.

(** ** The storage engine interface

    [WriteUser] and [BatchWritePingRets] of the [StoreEngine] interface: a
    write may change the engine and answers nil ([None]) or an error.
    [LoadConfig] and [Init] are used by SetStoreEngine only, before the store
    serves any operation. *)
Class StoreEngine (E : Type) := {
  WriteUser : string → User → E → option string * E;
  BatchWritePingRets : string → string → list PingRet → E → option string * E
}.

(** The order in which one [range] over a location map yields its entries:
    Go leaves it unspecified, every entry comes once. *)
Record range_order := mkRange {
  range_of :> gmap string (list PingRet) → list (string * list PingRet);
  range_of_perm m : range_of m ≡ₚ map_to_list m
}.

Definition range_sorted : range_order :=
  {| range_of := map_to_list; range_of_perm := λ m, reflexivity _ |}.

(** ** int64 *)

Definition wrap64 (z : Z) : Z := ((z + 2 ^ 63) mod 2 ^ 64 - 2 ^ 63)%Z.

Definition int64_range (z : Z) : Prop := (- 2 ^ 63 ≤ z < 2 ^ 63)%Z.

Arguments wrap64 : simpl never.

(** ** The store *)

Record Store (E : Type) := mkStore {
  servers : Servers;
  users : Users;
  allServers : gmap string Z;
  storeEngine : E;
  AddServerChan : list string;
  KickServerChan : list string;
  closeCounter : Z;
  isClosed : bool
}.
Arguments mkStore {E}.
Arguments servers {E}.
Arguments users {E}.
Arguments allServers {E}.
Arguments storeEngine {E}.
Arguments AddServerChan {E}.
Arguments KickServerChan {E}.
Arguments closeCounter {E}.
Arguments isClosed {E}.

Section store.
Context {E : Type} `{!StoreEngine E}.

Abbreviation Store := (Store E).

Definition set_servers (v : Servers) (s : Store) : Store :=
  mkStore v (users s) (allServers s) (storeEngine s)
          (AddServerChan s) (KickServerChan s) (closeCounter s) (isClosed s).
Definition set_users (v : Users) (s : Store) : Store :=
  mkStore (servers s) v (allServers s) (storeEngine s)
          (AddServerChan s) (KickServerChan s) (closeCounter s) (isClosed s).
Definition set_allServers (v : gmap string Z) (s : Store) : Store :=
  mkStore (servers s) (users s) v (storeEngine s)
          (AddServerChan s) (KickServerChan s) (closeCounter s) (isClosed s).
Definition set_storeEngine (v : E) (s : Store) : Store :=
  mkStore (servers s) (users s) (allServers s) v
          (AddServerChan s) (KickServerChan s) (closeCounter s) (isClosed s).
Definition set_AddServerChan (v : list string) (s : Store) : Store :=
  mkStore (servers s) (users s) (allServers s) (storeEngine s)
          v (KickServerChan s) (closeCounter s) (isClosed s).
Definition set_KickServerChan (v : list string) (s : Store) : Store :=
  mkStore (servers s) (users s) (allServers s) (storeEngine s)
          (AddServerChan s) v (closeCounter s) (isClosed s).
Definition set_closeCounter (v : Z) (s : Store) : Store :=
  mkStore (servers s) (users s) (allServers s) (storeEngine s)
          (AddServerChan s) (KickServerChan s) v (isClosed s).
Definition set_isClosed (v : bool) (s : Store) : Store :=
  mkStore (servers s) (users s) (allServers s) (storeEngine s)
          (AddServerChan s) (KickServerChan s) (closeCounter s) v.

Definition set_Password (p : string) (u : User) : User :=
  {| Username := Username u; Password := p;
     MonitorServers := MonitorServers u |}.
Definition set_MonitorServers (m : gmap string bool) (u : User) : User :=
  {| Username := Username u; Password := Password u; MonitorServers := m |}.

(** [s.allServers[server]]: the count, zero for an absent key. *)
Definition count_of (m : gmap string Z) (server : string) : Z :=
  default 0%Z (m !! server).

(** [u.MonitorServers[server]]: false for an absent key. *)
Definition monitors (u : User) (server : string) : bool :=
  default false (MonitorServers u !! server).

(** A body run by an operation: it sets the named result [err] and
    updates the store. *)
Definition body := Store → outcome (option error * Store).

(** *** Close and the guard *)

(** Close returns at once on a closed store; otherwise it sleeps until the
    counter of running operations is no longer positive and then sets the
    flag.  With no other caller to lower the counter, a positive counter
    keeps it waiting for ever ([None]). *)
Definition Close (s : Store) : option Store :=
  if isClosed s then Some s
  else if (0 <? closeCounter s)%Z then None
  else Some (set_isClosed true s).

Definition acquire (s : Store) : Store :=
  set_closeCounter (wrap64 (closeCounter s + 1)) s.

Definition release (s : Store) : Store :=
  set_closeCounter (wrap64 (closeCounter s + -1)) s.

(** [do]: nothing runs on a closed store (the result stays nil);
    otherwise the body runs between acquire and the deferred release. *)
Definition do (f : body) : body := λ s,
  if isClosed s then Done (None, s)
  else
    '(err, s') ← f (acquire s);
    Done (err, release s').

Definition withWriteLock {A} (f : Store → A) : Store → A := f.
Definition withReadLock {A} (f : Store → A) : Store → A := f.

(** [err = s.storeEngine.WriteUser(username, u)] *)
Definition engine_WriteUser (username : string) (u : User) : body := λ s,
  let '(r, e) := WriteUser username u (storeEngine s) in
  Done (EngineError <$> r, set_storeEngine e s).

(** [err = s.storeEngine.BatchWritePingRets(server, location, prs)] *)
Definition engine_BatchWritePingRets
    (server location : string) (prs : list PingRet) : body := λ s,
  let '(r, e) := BatchWritePingRets server location prs (storeEngine s) in
  Done (EngineError <$> r, set_storeEngine e s).

(** *** User operations *)

Definition GetUser (username : string) : Store → option User :=
  withReadLock (λ s, users s !! username).

Definition UpdatePassword (username oldpassword newpassword : string) : body :=
  do (withReadLock (λ s,
    match users s !! username with
    | Some u =>
        if bool_decide (Password u ≠ oldpassword)
        then Done (Some _ERROR_INCORRECT_PASSWORD, s)
        else
          let u := set_Password newpassword u in
          engine_WriteUser username u (set_users (<[username := u]> (users s)) s)
    | None => Done (None, s)
    end)).

Definition AddUser (username password : string) : body :=
  do (withWriteLock (λ s,
    match users s !! username with
    | Some _ =>
        Done (Some (Errorf ("User " +:+ username +:+ " already exist")), s)
    | None =>
        let u := set_Password password newUser in
        engine_WriteUser username u (set_users (<[username := u]> (users s)) s)
    end)).

(** *** Monitor operations *)

Definition DeleteMonitorServer (username server : string) : body :=
  do (withWriteLock (λ s,
    match users s !! username with
    | None =>
        Done (Some (Errorf ("user " +:+ username +:+ " not exist")), s)
    | Some u =>
        let '(u, s) :=
          if monitors u server then
            let u := set_MonitorServers (delete server (MonitorServers u)) u in
            let s := set_users (<[username := u]> (users s)) s in
            (u, set_allServers
                  (<[server := wrap64 (count_of (allServers s) server - 1)]>
                     (allServers s)) s)
          else (u, s) in
        let s :=
          if (count_of (allServers s) server <=? 0)%Z then
            let s := set_allServers (delete server (allServers s)) s in
            set_KickServerChan (KickServerChan s ++ [server]) s
          else s in
        engine_WriteUser username u s
    end)).

Definition AddMonitorServer (username server : string) : body :=
  do (withReadLock (λ s,
    match users s !! username with
    | None =>
        Done (Some (Errorf ("User " +:+ username +:+ " not exist")), s)
    | Some u =>
        if monitors u server then
          Done (Some (Errorf (server +:+ " is already in monitoring list")), s)
        else
          let u := set_MonitorServers (<[server := true]> (MonitorServers u)) u in
          let s := set_users (<[username := u]> (users s)) s in
          let s :=
            match allServers s !! server with
            | None => set_AddServerChan (AddServerChan s ++ [server]) s
            | Some _ => s
            end in
          let s :=
            set_allServers
              (<[server := wrap64 (count_of (allServers s) server + 1)]>
                 (allServers s)) s in
          engine_WriteUser username u s
    end)).

(** *** Ping results *)

(** [s.servers[server]] read as a map: an absent server is a nil map, which
    reads as an empty one. *)
Definition server_locs (s : Store) (server : string)
    : gmap string (list PingRet) :=
  default ∅ (servers s !! server).

(** [s.servers[server][location]]: nil, of length 0, when absent. *)
Definition location_prs (s : Store) (server location : string)
    : list PingRet :=
  default [] (server_locs s server !! location).

(** [s.servers[server][location] = prs]: the assignment goes through the
    inner map, which has to exist. *)
Definition assign_location (server location : string) (prs : list PingRet)
    (s : Store) : outcome Store :=
  match servers s !! server with
  | Some locs =>
      Done (set_servers (<[server := <[location := prs]> locs]> (servers s)) s)
  | None => Panic
  end.

(** [prs[i]] *)
Definition index (prs : list PingRet) (i : nat) : outcome PingRet :=
  match prs !! i with
  | Some p => Done p
  | None => Panic
  end.

(** The loop [for loc, prs := range s.servers[server]] that looks for the
    longest location, over the entries in the order the range yields
    them. *)
Fixpoint find_max (entries : list (string * list PingRet))
    (maxLength : nat) (maxLocation : string) : nat * string :=
  match entries with
  | [] => (maxLength, maxLocation)
  | (loc, prs) :: entries =>
      if bool_decide (maxLength < length prs)
      then find_max entries (length prs) loc
      else find_max entries maxLength maxLocation
  end.

(** The loop [for i := ...; i < maxLength; i++] with [n] rounds left to run
    ([n = maxLength - i], none when [i] is not below [maxLength]). *)
Fixpoint pad_loop (n : nat) (s : Store) (server maxLocation : string)
    (i : nat) (padPrs : list PingRet) : outcome (list PingRet) :=
  match n with
  | 0 => Done padPrs
  | S n =>
      p ← index (location_prs s server maxLocation) i;
      pad_loop n s server maxLocation (S i)
               (padPrs ++ [defaultPingRet (Time p)])
  end.

Definition AppendPingRet (range : range_order)
    (server location : string) (pr : PingRet) : body :=
  do (withWriteLock (λ s,
    if (count_of (allServers s) server <=? 0)%Z then
      Done (Some (Errorf ("server " +:+ server +:+ " is not exist")), s)
    else
      let s :=
        match servers s !! server with
        | None => set_servers (<[server := ∅]> (servers s)) s
        | Some _ => s
        end in
      s ← match server_locs s server !! location with
          | None => assign_location server location [] s
          | Some _ => Done s
          end;
      let '(maxLength, maxLocation) :=
        find_max (range (server_locs s server)) 0 "" in
      padPrs ←
        (if bool_decide (maxLength ≠ 0) then
           last ← index (location_prs s server maxLocation) (maxLength - 1);
           let maxLength :=
             if bool_decide (Time last = Time pr)
             then maxLength - 1 else maxLength in
           let i := length (location_prs s server location) in
           pad_loop (maxLength - i) s server maxLocation i []
         else Done []);
      let padPrs := padPrs ++ [pr] in
      s ← assign_location server location
            (location_prs s server location ++ padPrs) s;
      engine_BatchWritePingRets server location padPrs s)).

Definition GetMonitorResult (username server : string)
    : Store → option (gmap string (list PingRet)) * option error :=
  withReadLock (λ s,
    match users s !! username with
    | None => (None, Some (Errorf ("User " +:+ username +:+ " not exist")))
    | Some u =>
        match MonitorServers u !! server with
        | Some _ => (servers s !! server, None)
        | None =>
            (None, Some (Errorf ("You are not monitoring " +:+ server)))
        end
    end).

(** *** The reference counts *)

(** The number of users whose monitor set contains [server]. *)
Definition monitor_count (server : string) (us : Users) : nat :=
  size (filter (λ kv, monitors kv.2 server = true) us).

(** A store is consistent when every count in [allServers], an absent one
    read as zero, is the number of users that monitor the server. *)
Definition refcount_consistent (s : Store) : Prop :=
  ∀ server,
    count_of (allServers s) server
    = Z.of_nat (monitor_count server (users s)).

(** What a call leaves behind when it keeps the counts right: a consistent
    store with at most one user more. *)
Definition keeps_counts (s s' : Store) : Prop :=
  refcount_consistent s' ∧ size (users s') ≤ S (size (users s)).

(** *** Sequences of calls *)

Inductive call :=
| Call_AddUser (username password : string)
| Call_UpdatePassword (username oldpassword newpassword : string)
| Call_AddMonitorServer (username server : string)
| Call_DeleteMonitorServer (username server : string)
| Call_AppendPingRet (range : range_order)
    (server location : string) (pr : PingRet).

Definition step (c : call) : body :=
  match c with
  | Call_AddUser username password => AddUser username password
  | Call_UpdatePassword username oldpassword newpassword =>
      UpdatePassword username oldpassword newpassword
  | Call_AddMonitorServer username server => AddMonitorServer username server
  | Call_DeleteMonitorServer username server =>
      DeleteMonitorServer username server
  | Call_AppendPingRet range server location pr =>
      AppendPingRet range server location pr
  end.

(** The calls one after the other, whatever each returns. *)
Fixpoint run (cs : list call) (s : Store) : outcome Store :=
  match cs with
  | [] => Done s
  | c :: cs => '(_, s) ← step c s; run cs s
  end.

End store.

(** ** A recording engine

    An engine for running the store on concrete inputs: it answers every
    write with [reply] and keeps the writes it was asked for, oldest
    first. *)
Inductive engine_call :=
| WriteUser_call (username : string) (u : User)
| BatchWritePingRets_call (server location : string) (prs : list PingRet).

Record recorder := mkRecorder {
  reply : engine_call → option string;
  written : list engine_call
}.

Definition record (c : engine_call) (e : recorder) : option string * recorder :=
  (reply e c, {| reply := reply e; written := written e ++ [c] |}).

Global Instance recorder_engine : StoreEngine recorder := {|
  WriteUser username u := record (WriteUser_call username u);
  BatchWritePingRets server location prs :=
    record (BatchWritePingRets_call server location prs)
|}.

(** An engine whose writes succeed, and one whose writes fail. *)
Definition engine_ok : recorder := mkRecorder (λ _, None) [].
Definition engine_down : recorder := mkRecorder (λ _, Some "disk full") [].

(** The store as SetStoreEngine leaves it over an engine with nothing
    stored: empty maps, empty channels, open. *)
Definition empty_store {E} (e : E) : Store E :=
  mkStore ∅ ∅ ∅ e [] [] 0 false.

(** The store of the padding scenario: nothing recorded yet, user "alice"
    monitors "srv1", which is the state AddUser("alice","pw1") and
    AddMonitorServer("alice","srv1") leave behind on [empty_store]. *)
Definition alice_store {E} (e : E) : Store E :=
  mkStore ∅
    {["alice" := {| Username := ""; Password := "pw1";
                    MonitorServers := {["srv1" := true]} |}]}
    {["srv1" := 1%Z]} e ["srv1"] [] 0 false.

(** The store where "alice" exists and monitors nothing. *)
Definition idle_store {E} (e : E) : Store E :=
  mkStore ∅ {["alice" := set_Password "pw1" newUser]} ∅ e [] [] 0 false.

(** [alice_store] after "eu" has reported one sample for "srv1". *)
Definition sampled_store {E} (e : E) : Store E :=
  set_servers {["srv1" := {["eu" := [{| Time := "t1"; Ping := "10" |}]]}]}
    (alice_store e).

(** ** Binding the store to an engine *)

Definition _MIN_LEN_SERVER_CHAN : nat := 2 ^ 10.

(** The load side of the [StoreEngine] interface: [LoadConfig] hands the
    engine its configuration, [Init] hands back what the engine has stored
    (allocated maps, as everywhere). *)
Class StoreEngineInit (E : Type) := {
  LoadConfig : string → E → E;
  Init : E → (Servers * Users * gmap string Z) * E
}.

(** The order in which one [range] over [allServers] yields its keys. *)
Record key_order := mkKeys {
  keys_of :> gmap string Z → list string;
  keys_of_perm m : keys_of m ≡ₚ (map_to_list m).*1
}.

Definition keys_sorted : key_order :=
  {| keys_of := λ m, (map_to_list m).*1; keys_of_perm := λ m, reflexivity _ |}.

(** NewStore: only the counter is allocated.  The maps, the engine and the
    channels are nil; a nil map reads as an empty one, and with no engine none
    of the guarded operations applies to this store before SetStoreEngine has
    run. *)
Definition NewStore : Store unit := mkStore ∅ ∅ ∅ () [] [] 0 false.

Section binding.
Context {E : Type} `{!StoreEngineInit E}.

(** The package-level registry [engines]: constructors by name. *)
Abbreviation Engines := (gmap string (unit → E)).

Definition Register (engineName : string) (f : unit → E) (engines : Engines)
    : option error * Engines :=
  match engines !! engineName with
  | Some _ =>
      (Some (Errorf ("engine " +:+ engineName +:+ " already exist")), engines)
  | None => (None, <[engineName := f]> engines)
  end.

(** The capacity [l] both channels are made with. *)
Definition server_chan_len (allServers : gmap string Z) : nat :=
  let l := size allServers in
  if bool_decide (l < _MIN_LEN_SERVER_CHAN) then _MIN_LEN_SERVER_CHAN else l.

(** The loop [for server := range s.allServers] that sends every key on
    AddServerChan. *)
Fixpoint seed_servers (keys : list string) (AddServerChan : list string)
    : list string :=
  match keys with
  | [] => AddServerChan
  | server :: keys => seed_servers keys (AddServerChan ++ [server])
  end.

(** SetStoreEngine on a store [s], of which it keeps the counter and the
    flag; it panics on a name that is not registered. *)
Definition SetStoreEngine {E0} (engines : Engines) (range : key_order)
    (engineName config : string) (s : Store E0) : outcome (Store E) :=
  match engines !! engineName with
  | None => Panic
  | Some f =>
      let e := f () in
      let e := LoadConfig config e in
      let '(sv, us, all, e) := Init e in
      Done (mkStore sv us all e (seed_servers (range all) []) []
                    (closeCounter s) (isClosed s))
  end.

End binding.

(** Every entry of [allServers] is a positive count. *)
Definition entries_positive {E} (s : Store E) : Prop :=
  ∀ server c, allServers s !! server = Some c → (0 < c)%Z.

(** An engine that starts from a stored snapshot: it keeps the configuration
    it was given and answers writes like the recording engine inside. *)
Record loader := mkLoader {
  config_seen : option string;
  stored : Servers * Users * gmap string Z;
  recording : recorder
}.

Global Instance loader_engine : StoreEngine loader := {|
  WriteUser username u e :=
    let '(r, rec) := WriteUser username u (recording e) in
    (r, mkLoader (config_seen e) (stored e) rec);
  BatchWritePingRets server location prs e :=
    let '(r, rec) := BatchWritePingRets server location prs (recording e) in
    (r, mkLoader (config_seen e) (stored e) rec)
|}.

Global Instance loader_init : StoreEngineInit loader := {|
  LoadConfig config e := mkLoader (Some config) (stored e) (recording e);
  Init e := (stored e, e)
|}.

(** A loader that has "alice" monitoring "srv1" and "srv2" in store. *)
Definition loader_two : loader :=
  mkLoader None
    (∅,
     {["alice" := {| Username := ""; Password := "pw1";
                     MonitorServers := {["srv1" := true; "srv2" := true]} |}]},
     {["srv1" := 1%Z; "srv2" := 1%Z]})
    engine_ok.

(** ** Properties *)

Section properties.
Context {E : Type} `{!StoreEngine E}.
Implicit Types s : Store E.

(** *** int64 and the guard *)

Lemma wrap64_id z : int64_range z → wrap64 z = z.
Proof.
  unfold int64_range, wrap64. intros Hz.
  rewrite Z.mod_small; lia.
Qed.

Lemma wrap64_release_acquire c :
  int64_range c → wrap64 (wrap64 (c + 1) + -1) = c.
Proof.
  unfold int64_range. intros Hc.
  destruct (decide (c + 1 < 2 ^ 63)%Z) as [Hlt|Hge].
  - rewrite (wrap64_id (c + 1)) by (unfold int64_range; lia).
    replace (c + 1 + -1)%Z with c by lia.
    apply wrap64_id. unfold int64_range. lia.
  - assert (c = 2 ^ 63 - 1)%Z as -> by lia. reflexivity.
Qed.

Lemma release_acquire_id s :
  int64_range (closeCounter s) → release (acquire s) = s.
Proof.
  intros Hc. destruct s. unfold release, acquire, set_closeCounter. simpl in *.
  by rewrite wrap64_release_acquire.
Qed.

Lemma do_closed (f : body) s : isClosed s = true → do f s = Done (None, s).
Proof. intros Hc. unfold do. by rewrite Hc. Qed.

Lemma do_open (f : body) s :
  isClosed s = false →
  do f s = '(err, s') ← f (acquire s); Done (err, release s').
Proof. intros Hc. unfold do. by rewrite Hc. Qed.

(** Unfolds the guard of an operation on an open store and the locks, and
    reduces the field reads of the updated store. *)
Ltac enter_open Hopen :=
  rewrite do_open by exact Hopen;
  unfold withReadLock, withWriteLock;
  cbn [acquire set_closeCounter servers users allServers storeEngine
       AddServerChan KickServerChan closeCounter isClosed].

Ltac reduce_store :=
  unfold engine_WriteUser, engine_BatchWritePingRets, acquire, release,
    set_servers, set_users, set_allServers, set_storeEngine,
    set_AddServerChan, set_KickServerChan, set_closeCounter, set_isClosed;
  cbn [servers users allServers storeEngine
       AddServerChan KickServerChan closeCounter isClosed
       mbind outcome_bind fst snd].

(** Closes a goal about the store an operation returns, once the counter is
    known to hold an int64. *)
Ltac same_store Hc s :=
  reduce_store; rewrite ?(wrap64_release_acquire _ Hc); by destruct s.

(** *** User operations *)

(** C10.  On an open store, UpdatePassword for a username that is not in
    [users] returns nil and leaves the whole store as it was, the engine
    included: no write reaches it.  (The counter of running operations holds
    an int64: it goes up and down again around the body.) *)
Theorem UpdatePassword_unknown_user username oldpassword newpassword s :
  isClosed s = false →
  int64_range (closeCounter s) →
  users s !! username = None →
  UpdatePassword username oldpassword newpassword s = Done (None, s).
Proof.
  intros Hopen Hc Hu. unfold UpdatePassword. enter_open Hopen.
  rewrite Hu. same_store Hc s.
Qed.


(** *** Monitor operations *)


(** *** Ping results: the search for the longest location and the padding *)

(** [find_max] returns a bound on every length it has seen; unless it
    returns what it started from, it returns an entry of that length. *)
Lemma find_max_spec entries maxLength maxLocation m loc :
  find_max entries maxLength maxLocation = (m, loc) →
  maxLength ≤ m
  ∧ (∀ k prs, (k, prs) ∈ entries → length prs ≤ m)
  ∧ ((m = maxLength ∧ loc = maxLocation)
     ∨ (maxLength < m ∧ ∃ prs, (loc, prs) ∈ entries ∧ length prs = m)).
Proof.
  revert maxLength maxLocation.
  induction entries as [|[k prs] entries IH]; intros m0 loc0 Hfind.
  - simpl in Hfind. inversion Hfind; subst.
    split; [lia|]. split; [|by left]. intros k prs Hin. by inversion Hin.
  - simpl in Hfind. case_bool_decide as Hlt.
    + apply IH in Hfind as (Hle & Hall & Hwhich).
      split; [lia|]. split.
      * intros k' prs' [Heq|Hin]%elem_of_cons; [|by eapply Hall].
        inversion Heq; subst. lia.
      * right. split; [lia|].
        destruct Hwhich as [[-> ->]|(_ & prs' & Hin & Hlen)].
        -- exists prs. split; [left|done].
        -- exists prs'. split; [by right|done].
    + apply IH in Hfind as (Hle & Hall & Hwhich).
      split; [done|]. split.
      * intros k' prs' [Heq|Hin]%elem_of_cons; [|by eapply Hall].
        inversion Heq; subst. lia.
      * destruct Hwhich as [?|(Hlt' & prs' & Hin & Hlen)]; [by left|].
        right. split; [done|]. exists prs'. split; [by right|done].
Qed.

(** Over the entries of a map, in any order. *)
Lemma find_max_range (range : range_order) locs m loc :
  find_max (range locs) 0 "" = (m, loc) →
  (∀ k prs, locs !! k = Some prs → length prs ≤ m)
  ∧ (m ≠ 0 → ∃ prs, locs !! loc = Some prs ∧ length prs = m).
Proof.
  intros (_ & Hall & Hwhich)%find_max_spec. split.
  - intros k prs Hk. apply (Hall k).
    rewrite (range_of_perm range locs). by apply elem_of_map_to_list.
  - intros Hm. destruct Hwhich as [[? _]|(_ & prs & Hin & Hlen)]; [done|].
    exists prs. split; [|done].
    rewrite (range_of_perm range locs) in Hin. by apply elem_of_map_to_list.
Qed.

(** The padding loop copies the Times of [maxLocation] from index [i] on,
    [n] of them, when that many are there. *)
Lemma pad_loop_spec n s server maxLocation i padPrs :
  i + n ≤ length (location_prs s server maxLocation) →
  pad_loop n s server maxLocation i padPrs
  = Done (padPrs ++ ((λ p, defaultPingRet (Time p))
                       <$> take n (drop i (location_prs s server maxLocation)))).
Proof.
  revert i padPrs. induction n as [|n IH]; intros i padPrs Hlen.
  - simpl. by rewrite app_nil_r.
  - destruct (lookup_lt_is_Some_2 (location_prs s server maxLocation) i)
      as [p Hp]; [lia|].
    simpl. unfold index. rewrite Hp. simpl.
    rewrite IH by lia.
    rewrite (drop_S _ _ _ Hp). simpl. by rewrite <- app_assoc.
Qed.

(** What AppendPingRet does on an open store for a monitored server, with
    [m] and [loc] the length and the name the search returns over the
    locations of the server, the target location included. *)
Lemma AppendPingRet_monitored (range : range_order) server location pr s m loc :
  isClosed s = false →
  (0 < count_of (allServers s) server)%Z →
  let cur := location_prs s server location in
  let locs := <[location := cur]> (server_locs s server) in
  find_max (range locs) 0 "" = (m, loc) →
  ∃ padPrs,
    (m = 0 → padPrs = [])
    ∧ (m ≠ 0 → ∃ longest last,
         locs !! loc = Some longest ∧ length longest = m
         ∧ longest !! (m - 1) = Some last
         ∧ padPrs
           = (λ p, defaultPingRet (Time p))
               <$> take ((if bool_decide (Time last = Time pr)
                          then m - 1 else m) - length cur)
                     (drop (length cur) longest))
    ∧ AppendPingRet range server location pr s
      = Done (EngineError <$>
                (BatchWritePingRets server location (padPrs ++ [pr])
                   (storeEngine s)).1,
              release
                (set_storeEngine
                   (BatchWritePingRets server location (padPrs ++ [pr])
                      (storeEngine s)).2
                   (set_servers
                      (<[server := <[location := cur ++ padPrs ++ [pr]]>
                                     (server_locs s server)]> (servers s))
                      (acquire s)))).
Proof.
  intros Hopen Hcount cur locs Hfind.
  pose proof (find_max_range range locs m loc Hfind) as [Hall Hwhich].
  (* the pad buffer before the sample is appended *)
  assert (∃ padPrs,
    (m = 0 → padPrs = [])
    ∧ (m ≠ 0 → ∃ longest last,
         locs !! loc = Some longest ∧ length longest = m
         ∧ longest !! (m - 1) = Some last
         ∧ padPrs
           = (λ p, defaultPingRet (Time p))
               <$> take ((if bool_decide (Time last = Time pr)
                          then m - 1 else m) - length cur)
                     (drop (length cur) longest))
    ∧ ∀ s2, server_locs s2 server = locs →
        (if bool_decide (m ≠ 0) then
           last ← index (location_prs s2 server loc) (m - 1);
           pad_loop
             ((if bool_decide (Time last = Time pr) then m - 1 else m)
              - length (location_prs s2 server location))
             s2 server loc (length (location_prs s2 server location)) []
         else Done []) = Done padPrs) as (padPrs & Hzero & Hpos & Hpad).
  { destruct (decide (m = 0)) as [->|Hm].
    - exists []. split; [done|]. split; [done|]. intros s2 _.
      by rewrite bool_decide_eq_false_2 by (intros ?; done).
    - destruct (Hwhich Hm) as (longest & Hlongest & Hlen).
      destruct (lookup_lt_is_Some_2 longest (m - 1)) as [last Hlast]; [lia|].
      exists ((λ p, defaultPingRet (Time p))
                <$> take ((if bool_decide (Time last = Time pr)
                           then m - 1 else m) - length cur)
                      (drop (length cur) longest)).
      split; [done|]. split.
      { intros _. by exists longest, last. }
      intros s2 Hs2. rewrite bool_decide_eq_true_2 by done.
      assert (location_prs s2 server loc = longest) as Hl.
      { unfold location_prs. by rewrite Hs2, Hlongest. }
      assert (location_prs s2 server location = cur) as Hc.
      { unfold location_prs. rewrite Hs2. unfold locs.
        by rewrite lookup_insert_eq. }
      unfold index at 1. rewrite Hl, Hlast. simpl.
      rewrite Hc. rewrite pad_loop_spec.
      + by rewrite Hl.
      + rewrite Hl.
        assert (length cur ≤ m)
          by (apply (Hall location); apply lookup_insert_eq).
        case_bool_decide; lia. }
  exists padPrs. split; [done|]. split; [done|].
  unfold AppendPingRet. enter_open Hopen.
  rewrite (proj2 (Z.leb_gt _ _)) by done.
  (* the store once the two maps are known to have their entries *)
  set (s2 := set_servers (<[server := locs]> (servers s)) (acquire s)).
  match goal with
  | |- (?created ≫= _) ≫= _ = _ =>
      assert (created = Done s2) as ->
  end.
  { unfold s2, locs, cur, location_prs, server_locs, assign_location.
    destruct (servers s !! server) as [l|] eqn:Hl; reduce_store.
    - rewrite Hl. simpl. destruct (l !! location) as [c|] eqn:Hc; simpl.
      + by rewrite (insert_id l location c Hc), (insert_id _ server l Hl).
      + done.
    - rewrite lookup_insert_eq. simpl. rewrite lookup_empty. simpl.
      by rewrite insert_insert_eq. }
  assert (server_locs s2 server = locs) as Hs2.
  { unfold server_locs, s2. reduce_store. by rewrite lookup_insert_eq. }
  assert (location_prs s2 server location = cur) as Hcur.
  { unfold location_prs. rewrite Hs2. unfold locs.
    by rewrite lookup_insert_eq. }
  cbn [mbind outcome_bind]. rewrite Hs2, Hfind.
  rewrite (Hpad s2 Hs2). cbn [mbind outcome_bind]. rewrite Hcur.
  unfold assign_location. subst s2. reduce_store.
  rewrite lookup_insert_eq. reduce_store.
  subst locs. rewrite !insert_insert_eq.
  by destruct (BatchWritePingRets server location (padPrs ++ [pr])
                 (storeEngine s)).
Qed.

(** The sequence of the target location in the store the lemma above
    describes. *)
Lemma location_prs_assigned server location prs locs (sv : Servers) e s :
  location_prs
    (release (set_storeEngine e
       (set_servers (<[server := <[location := prs]> locs]> sv) (acquire s))))
    server location = prs.
Proof.
  unfold location_prs, server_locs. reduce_store.
  by rewrite lookup_insert_eq; simpl; rewrite lookup_insert_eq.
Qed.

(** C7.  On an open store AppendPingRet returns the "server ... is not
    exist" error exactly when the count of the server in [allServers], zero
    when absent, is at most zero, and then [servers] is as it was; when the
    count is positive the only error it can return is the engine's, and the
    sequence of the location ends up as the old one, followed by some padding,
    followed by the incoming sample. *)
Theorem AppendPingRet_server_not_found
    (range : range_order) server location pr s :
  isClosed s = false →
  ∃ err s',
    AppendPingRet range server location pr s = Done (err, s')
    ∧ (err = Some (Errorf ("server " +:+ server +:+ " is not exist"))
       ↔ (count_of (allServers s) server ≤ 0)%Z)
    ∧ ((count_of (allServers s) server ≤ 0)%Z → servers s' = servers s)
    ∧ ((0 < count_of (allServers s) server)%Z →
       ∃ padPrs,
         location_prs s' server location
         = location_prs s server location ++ padPrs ++ [pr]).
Proof.
  intros Hopen.
  destruct (decide (count_of (allServers s) server ≤ 0)%Z) as [Hle|Hgt].
  - exists (Some (Errorf ("server " +:+ server +:+ " is not exist"))),
      (release (acquire s)).
    split.
    { unfold AppendPingRet. enter_open Hopen.
      by rewrite (proj2 (Z.leb_le _ _)) by done. }
    split; [done|]. split; [done|]. lia.
  - destruct (find_max
                (range (<[location := location_prs s server location]>
                          (server_locs s server))) 0 "") as [m loc] eqn:Hfind.
    destruct (AppendPingRet_monitored range server location pr s m loc)
      as (padPrs & _ & _ & Hrun); [done|lia|done|].
    eexists _, _. split; [exact Hrun|]. split; [|split].
    + split; [|lia].
      by destruct (BatchWritePingRets server location (padPrs ++ [pr])
                     (storeEngine s)) as [[?|] ?].
    + lia.
    + intros _. exists padPrs. apply location_prs_assigned.
Qed.

(** C4.  On an open store, for a monitored server that has a location with
    at least one sample: AppendPingRet takes a location [maxLocation] whose
    sequence [longest] is as long as any of that server; with [last] its last
    sample, the padding target is [length longest - 1] when
    [Time last = Time pr] and [length longest] otherwise; the location gets,
    after what it had, one placeholder for each index from its old length
    up to the target (not included), with the Time [longest] has at that index
    and Ping "0.000", and then the incoming sample. *)
Theorem AppendPingRet_same_tick_guard
    (range : range_order) server location pr s loc0 prs0 :
  isClosed s = false →
  (0 < count_of (allServers s) server)%Z →
  server_locs s server !! loc0 = Some prs0 →
  prs0 ≠ [] →
  ∃ maxLocation longest lastpr err s',
    server_locs s server !! maxLocation = Some longest
    ∧ (∀ loc prs,
         server_locs s server !! loc = Some prs →
         length prs ≤ length longest)
    ∧ last longest = Some lastpr
    ∧ AppendPingRet range server location pr s = Done (err, s')
    ∧ let cur := location_prs s server location in
      let target :=
        if bool_decide (Time lastpr = Time pr)
        then length longest - 1 else length longest in
      location_prs s' server location
      = cur
        ++ ((λ p, {| Time := Time p; Ping := "0.000" |})
              <$> take (target - length cur) (drop (length cur) longest))
        ++ [pr].
Proof.
  intros Hopen Hcount Hloc0 Hne.
  set (cur := location_prs s server location).
  set (locs := <[location := cur]> (server_locs s server)).
  destruct (find_max (range locs) 0 "") as [m loc] eqn:Hfind.
  pose proof (find_max_range range locs m loc Hfind) as [Hall _].
  (* the locations of the server are those the search ran over *)
  assert (∀ k prs, server_locs s server !! k = Some prs → locs !! k = Some prs)
    as Hsub.
  { intros k prs Hk. unfold locs.
    destruct (decide (k = location)) as [->|Hkl].
    - rewrite lookup_insert_eq. unfold cur, location_prs. by rewrite Hk.
    - by rewrite lookup_insert_ne. }
  assert (m ≠ 0) as Hm.
  { pose proof (Hall loc0 prs0 (Hsub _ _ Hloc0)). destruct prs0; [done|].
    simpl in *. lia. }
  destruct (AppendPingRet_monitored range server location pr s m loc)
    as (padPrs & _ & Hpos & Hrun); [done|done|done|].
  destruct (Hpos Hm) as (longest & lastpr & Hlongest & Hlen & Hlast & ->).
  exists loc, longest, lastpr. eexists _, _.
  split; [|split; [|split; [|split; [exact Hrun|]]]].
  - fold locs in Hlongest. unfold locs in Hlongest.
    destruct (decide (loc = location)) as [->|Hll].
    + rewrite lookup_insert_eq in Hlongest.
      assert (location_prs s server location = longest) as Hcur
        by congruence.
      unfold location_prs in Hcur.
      destruct (server_locs s server !! location) as [c|] eqn:Hc;
        simpl in Hcur.
      * by rewrite Hcur.
      * rewrite <- Hcur in Hlen. simpl in Hlen. lia.
    + by rewrite lookup_insert_ne in Hlongest.
  - intros k prs Hk. rewrite Hlen. apply (Hall k), Hsub, Hk.
  - rewrite last_lookup, Hlen. by replace (pred m) with (m - 1) by lia.
  - intros cur' target. rewrite location_prs_assigned.
    subst cur' target. fold cur. by rewrite Hlen.
Qed.

(** C3.  The padding scenario.  On the store where "alice" monitors "srv1"
    and no sample is recorded, the first AppendPingRet hands the engine the
    batch of the one sample and records exactly that for "eu"; the second
    hands the engine the batch of the placeholder ("t1", "0.000") followed by
    the sample, and records that batch for "us".  Each call returns what the
    engine answered to its batch: nil when the write succeeded. *)
Theorem padding_scenario (e : E) (range1 range2 : range_order) :
  let p1 := {| Time := "t1"; Ping := "10" |} in
  let p2 := {| Time := "t2"; Ping := "12" |} in
  let batch2 := [{| Time := "t1"; Ping := "0.000" |}; p2] in
  let w1 := BatchWritePingRets "srv1" "eu" [p1] e in
  let w2 := BatchWritePingRets "srv1" "us" batch2 w1.2 in
  ∃ s1 s2,
    AppendPingRet range1 "srv1" "eu" p1 (alice_store e)
    = Done (EngineError <$> w1.1, s1)
    ∧ servers s1 = {["srv1" := {["eu" := [p1]]}]}
    ∧ storeEngine s1 = w1.2
    ∧ AppendPingRet range2 "srv1" "us" p2 s1
      = Done (EngineError <$> w2.1, s2)
    ∧ servers s2 = {["srv1" := {["eu" := [p1]; "us" := batch2]}]}
    ∧ storeEngine s2 = w2.2.
Proof.
  intros p1 p2 batch2 w1 w2.
  (* first call: nothing to pad towards *)
  set (s0 := alice_store e).
  pose proof (AppendPingRet_monitored range1 "srv1" "eu" p1 s0) as Hfirst.
  cbv zeta in Hfirst.
  assert (server_locs s0 "srv1" = ∅) as Hlocs0 by reflexivity.
  assert (location_prs s0 "srv1" "eu" = []) as Hcur0 by reflexivity.
  rewrite Hcur0, Hlocs0 in Hfirst.
  destruct (find_max (range1 (<["eu" := []]> ∅)) 0 "")
    as [m1 loc1] eqn:Hfind1.
  destruct (Hfirst m1 loc1) as (pad1 & Hzero1 & _ & Hrun1); [done..|].
  assert (m1 = 0) as Hm1.
  { apply find_max_range in Hfind1 as [_ Hwhich].
    destruct (decide (m1 = 0)) as [|Hm]; [done|].
    destruct (Hwhich Hm) as (prs & Hprs & Hlen).
    apply lookup_insert_Some in Hprs as [[_ <-]|[_ Hprs]]; [done|].
    by rewrite lookup_empty in Hprs. }
  rewrite (Hzero1 Hm1) in Hrun1. clear Hzero1 Hfind1 Hfirst.
  change ([] ++ [p1]) with [p1] in Hrun1.
  fold w1 in Hrun1.
  match type of Hrun1 with _ = Done (_, ?s) => set (s1 := s) in * end.
  exists s1.
  assert (servers s1 = {["srv1" := {["eu" := [p1]]}]}) as Hservers1.
  { unfold s1. reduce_store. by rewrite !insert_empty. }
  (* second call: "eu" has one sample, of another Time *)
  pose proof (AppendPingRet_monitored range2 "srv1" "us" p2 s1) as Hsecond.
  cbv zeta in Hsecond.
  assert (server_locs s1 "srv1" = {["eu" := [p1]]}) as Hlocs1.
  { unfold server_locs. rewrite Hservers1. by rewrite lookup_singleton_eq. }
  assert (location_prs s1 "srv1" "us" = []) as Hcur1.
  { unfold location_prs. rewrite Hlocs1. by rewrite lookup_singleton_ne. }
  rewrite Hcur1, Hlocs1 in Hsecond.
  destruct (find_max (range2 (<["us" := []]> {["eu" := [p1]]})) 0 "")
    as [m2 loc2] eqn:Hfind2.
  destruct (Hsecond m2 loc2) as (pad2 & _ & Hpos2 & Hrun2); [done..|].
  apply find_max_range in Hfind2 as [Hall Hwhich].
  assert (m2 ≠ 0) as Hm2.
  { pose proof (Hall "eu" [p1]) as Heu.
    rewrite lookup_insert_ne, lookup_singleton_eq in Heu by done.
    specialize (Heu eq_refl). simpl in Heu. lia. }
  destruct (Hpos2 Hm2) as (longest & lastpr & Hlongest & Hlen & Hlast & Hpad).
  assert (longest = [p1]) as ->.
  { apply lookup_insert_Some in Hlongest as [[_ Heq]|[_ Hlongest]].
    - subst longest. simpl in Hlen. lia.
    - by apply lookup_singleton_Some in Hlongest as [_ <-]. }
  simpl in Hlen. subst m2. simpl in Hlast. inversion Hlast; subst lastpr.
  simpl in Hpad. subst pad2.
  change ([defaultPingRet "t1"] ++ [p2]) with batch2 in Hrun2.
  change (storeEngine s1) with w1.2 in Hrun2. fold w2 in Hrun2.
  eexists. split; [exact Hrun1|]. split; [done|]. split; [done|].
  split; [exact Hrun2|]. split; [|done].
  reduce_store. rewrite Hservers1. rewrite insert_singleton_eq.
  f_equal.
Qed.

(** *** Persistence failures *)


(** *** The reference counts *)

Lemma monitor_count_insert server username u (us : Users) :
  monitor_count server (<[username := u]> us)
  = (if monitors u server then 1 else 0)
    + monitor_count server (delete username us).
Proof.
  unfold monitor_count. rewrite map_filter_insert. simpl.
  destruct (monitors u server) eqn:Hm.
  - rewrite decide_True by done.
    rewrite <- insert_delete_eq, map_size_insert_None
      by apply lookup_delete_eq.
    by rewrite map_filter_delete.
  - rewrite decide_False by (by intros ?). done.
Qed.

Lemma monitor_count_lookup server username u (us : Users) :
  us !! username = Some u →
  monitor_count server us
  = (if monitors u server then 1 else 0)
    + monitor_count server (delete username us).
Proof.
  intros Hu. rewrite <- (insert_id us username u Hu) at 1.
  apply monitor_count_insert.
Qed.

Lemma monitor_count_le server (us : Users) : monitor_count server us ≤ size us.
Proof. apply map_size_filter. Qed.

(** Overwriting a user changes the count of a server by the change in that
    user's membership. *)
Lemma monitor_count_update server username u u' (us : Users) :
  us !! username = Some u →
  monitor_count server (<[username := u']> us)
  + (if monitors u server then 1 else 0)
  = monitor_count server us + (if monitors u' server then 1 else 0).
Proof.
  intros Hu. rewrite monitor_count_insert.
  rewrite (monitor_count_lookup server username u us Hu). lia.
Qed.

Lemma monitor_count_update_le server username u (us : Users) :
  us !! username = Some u →
  monitors u server = false →
  monitor_count server us < size us.
Proof.
  intros Hu Hm. rewrite (monitor_count_lookup server username u us Hu), Hm.
  pose proof (monitor_count_le server (delete username us)) as Hle.
  rewrite map_size_delete_Some in Hle by eauto.
  assert (size us ≠ 0); [|lia].
  intros Hz. apply map_size_empty_inv in Hz. subst us.
  by rewrite lookup_empty in Hu.
Qed.

Lemma monitors_insert_true u server server' :
  monitors (set_MonitorServers (<[server := true]> (MonitorServers u)) u) server'
  = if decide (server = server') then true else monitors u server'.
Proof.
  unfold monitors, set_MonitorServers. simpl. rewrite lookup_insert.
  by destruct (decide (server = server')).
Qed.

Lemma monitors_delete u server server' :
  monitors (set_MonitorServers (delete server (MonitorServers u)) u) server'
  = if decide (server = server') then false else monitors u server'.
Proof.
  unfold monitors, set_MonitorServers. simpl. rewrite lookup_delete.
  by destruct (decide (server = server')).
Qed.

Lemma count_of_insert (m : gmap string Z) server z server' :
  count_of (<[server := z]> m) server'
  = if decide (server = server') then z else count_of m server'.
Proof.
  unfold count_of. rewrite lookup_insert.
  by destruct (decide (server = server')).
Qed.

Lemma count_of_delete (m : gmap string Z) server server' :
  count_of (delete server m) server'
  = if decide (server = server') then 0%Z else count_of m server'.
Proof.
  unfold count_of. rewrite lookup_delete.
  by destruct (decide (server = server')).
Qed.

Lemma closed_keeps_counts (f : body) s :
  refcount_consistent s → isClosed s = true →
  ∃ err s', do f s = Done (err, s') ∧ keeps_counts s s'.
Proof.
  intros Hinv Hclosed. exists None, s. rewrite do_closed by done.
  split; [done|]. split; [done|lia].
Qed.

Lemma AddUser_keeps_counts username password s :
  refcount_consistent s →
  ∃ err s', AddUser username password s = Done (err, s') ∧ keeps_counts s s'.
Proof.
  intros Hinv. destruct (isClosed s) eqn:Hopen; [by apply closed_keeps_counts|].
  unfold AddUser. enter_open Hopen.
  destruct (users s !! username) as [u|] eqn:Hu; reduce_store.
  - eexists _, _. split; [done|]. split; [|reduce_store; lia]. exact Hinv.
  - destruct (WriteUser username (set_Password password newUser)
                (storeEngine s)) as [r e].
    eexists _, _. split; [done|]. split; reduce_store.
    + intros server. reduce_store. rewrite monitor_count_insert.
      rewrite (delete_id _ _ Hu). rewrite (Hinv server).
      unfold monitors. simpl. rewrite lookup_empty. simpl. lia.
    + by rewrite map_size_insert_None.
Qed.

Lemma UpdatePassword_keeps_counts username oldpassword newpassword s :
  refcount_consistent s →
  ∃ err s',
    UpdatePassword username oldpassword newpassword s = Done (err, s')
    ∧ keeps_counts s s'.
Proof.
  intros Hinv. destruct (isClosed s) eqn:Hopen; [by apply closed_keeps_counts|].
  unfold UpdatePassword. enter_open Hopen.
  destruct (users s !! username) as [u|] eqn:Hu; reduce_store.
  - case_bool_decide.
    + eexists _, _. split; [done|]. split; [|reduce_store; lia]. exact Hinv.
    + reduce_store.
      destruct (WriteUser username (set_Password newpassword u)
                  (storeEngine s)) as [r e].
      eexists _, _. split; [done|]. split; reduce_store.
      * intros server. reduce_store.
        pose proof (monitor_count_update server username u
                      (set_Password newpassword u) (users s) Hu) as Hmc.
        change (monitors (set_Password newpassword u) server)
          with (monitors u server) in Hmc.
        rewrite (Hinv server). lia.
      * rewrite map_size_insert_Some by eauto. lia.
  - eexists _, _. split; [done|]. split; [|reduce_store; lia]. exact Hinv.
Qed.

Lemma AddMonitorServer_keeps_counts username server s :
  refcount_consistent s →
  (Z.of_nat (size (users s)) < 2 ^ 63)%Z →
  ∃ err s',
    AddMonitorServer username server s = Done (err, s') ∧ keeps_counts s s'.
Proof.
  intros Hinv Hsize.
  destruct (isClosed s) eqn:Hopen; [by apply closed_keeps_counts|].
  unfold AddMonitorServer. enter_open Hopen.
  destruct (users s !! username) as [u|] eqn:Hu; reduce_store.
  2: { eexists _, _. split; [done|]. split; [|reduce_store; lia]. exact Hinv. }
  destruct (monitors u server) eqn:Hm.
  { eexists _, _. split; [done|]. split; [|reduce_store; lia]. exact Hinv. }
  set (u' := set_MonitorServers (<[server := true]> (MonitorServers u)) u).
  assert (∀ server',
    count_of (<[server := wrap64 (count_of (allServers s) server + 1)]>
                (allServers s)) server'
    = Z.of_nat (monitor_count server' (<[username := u']> (users s))))
    as Hinv'.
  { intros server'. rewrite count_of_insert.
    pose proof (monitor_count_update server' username u u' (users s) Hu)
      as Hmc.
    unfold u' in Hmc at 2. rewrite monitors_insert_true in Hmc.
    destruct (decide (server = server')) as [<-|Hne].
    - rewrite Hm in Hmc.
      pose proof (monitor_count_update_le server username u (users s) Hu Hm).
      rewrite (Hinv server). rewrite wrap64_id by (unfold int64_range; lia).
      lia.
    - rewrite (Hinv server'). lia. }
  destruct (allServers s !! server) eqn:Hs; reduce_store;
    destruct (WriteUser username u' (storeEngine s)) as [r e];
    (eexists _, _; split; [done|]; split;
     [exact Hinv' | reduce_store; rewrite map_size_insert_Some by eauto; lia]).
Qed.

Lemma DeleteMonitorServer_keeps_counts username server s :
  refcount_consistent s →
  (Z.of_nat (size (users s)) < 2 ^ 63)%Z →
  ∃ err s',
    DeleteMonitorServer username server s = Done (err, s') ∧ keeps_counts s s'.
Proof.
  intros Hinv Hsize.
  destruct (isClosed s) eqn:Hopen; [by apply closed_keeps_counts|].
  unfold DeleteMonitorServer. enter_open Hopen.
  destruct (users s !! username) as [u|] eqn:Hu; reduce_store.
  2: { eexists _, _. split; [done|]. split; [|reduce_store; lia]. exact Hinv. }
  destruct (monitors u server) eqn:Hm; reduce_store.
  - (* the user monitors the server: it leaves the set, the count drops *)
    set (u' := set_MonitorServers (delete server (MonitorServers u)) u).
    set (c := wrap64 (count_of (allServers s) server - 1)).
    pose proof (monitor_count_lookup server username u (users s) Hu) as Hone.
    rewrite Hm in Hone.
    pose proof (monitor_count_le server (users s)) as Hle.
    assert (c = (count_of (allServers s) server - 1)%Z) as Hc.
    { unfold c. rewrite (Hinv server).
      apply wrap64_id. unfold int64_range. lia. }
    assert (∀ m : gmap string Z,
      (∀ server', count_of m server'
         = if decide (server = server')
           then c else count_of (allServers s) server') →
      ∀ server', count_of m server'
        = Z.of_nat (monitor_count server' (<[username := u']> (users s))))
      as Hinv'.
    { intros m Hm' server'. rewrite Hm'.
      pose proof (monitor_count_update server' username u u' (users s) Hu)
        as Hmc.
      unfold u' in Hmc at 2. rewrite monitors_delete in Hmc.
      destruct (decide (server = server')) as [<-|Hne].
      - rewrite Hm in Hmc. rewrite Hc, (Hinv server). lia.
      - rewrite (Hinv server'). lia. }
    rewrite count_of_insert, decide_True by done. fold c.
    destruct (c <=? 0)%Z eqn:Hzero; reduce_store;
      destruct (WriteUser username u' (storeEngine s)) as [r e];
      (eexists _, _; split; [done|]; split;
       [intros server0; reduce_store; revert server0
       |reduce_store; rewrite map_size_insert_Some by eauto; lia]).
    + apply Hinv'. intros server'. rewrite count_of_delete, count_of_insert.
      destruct (decide (server = server')); [|done].
      apply Z.leb_le in Hzero. rewrite Hc, (Hinv server) in *. lia.
    + apply Hinv'. intros server'. apply count_of_insert.
  - (* the user does not monitor the server: only a count that is not
       positive goes *)
    destruct (count_of (allServers s) server <=? 0)%Z eqn:Hzero; reduce_store;
      destruct (WriteUser username u (storeEngine s)) as [r e];
      (eexists _, _; split; [done|]; split; [|reduce_store; lia]).
    + intros server'. reduce_store. rewrite count_of_delete.
      destruct (decide (server = server')) as [<-|]; [|apply Hinv].
      apply Z.leb_le in Hzero. rewrite <- (Hinv server).
      rewrite (Hinv server) in *. lia.
    + exact Hinv.
Qed.

Lemma AppendPingRet_keeps_counts (range : range_order) server location pr s :
  refcount_consistent s →
  ∃ err s',
    AppendPingRet range server location pr s = Done (err, s')
    ∧ keeps_counts s s'.
Proof.
  intros Hinv. destruct (isClosed s) eqn:Hopen; [by apply closed_keeps_counts|].
  destruct (decide (count_of (allServers s) server ≤ 0)%Z) as [Hle|Hgt].
  - unfold AppendPingRet. enter_open Hopen.
    rewrite (proj2 (Z.leb_le _ _)) by done. reduce_store.
    eexists _, _. split; [done|]. split; [|reduce_store; lia]. exact Hinv.
  - destruct (find_max
                (range (<[location := location_prs s server location]>
                          (server_locs s server))) 0 "") as [m loc] eqn:Hfind.
    destruct (AppendPingRet_monitored range server location pr s m loc)
      as (padPrs & _ & _ & Hrun); [done|lia|done|].
    eexists _, _. split; [exact Hrun|]. split; [|reduce_store; lia].
    exact Hinv.
Qed.

Lemma step_keeps_counts c s :
  refcount_consistent s →
  (Z.of_nat (size (users s)) < 2 ^ 63)%Z →
  ∃ err s', step c s = Done (err, s') ∧ keeps_counts s s'.
Proof.
  intros Hinv Hsize. destruct c; simpl.
  - by apply AddUser_keeps_counts.
  - by apply UpdatePassword_keeps_counts.
  - by apply AddMonitorServer_keeps_counts.
  - by apply DeleteMonitorServer_keeps_counts.
  - by apply AppendPingRet_keeps_counts.
Qed.

(** C1.  From a store whose counts are right, any sequence of calls (of
    AddUser, AddMonitorServer and DeleteMonitorServer, and of the other
    guarded operations as well) runs to its end and leaves a store where, for
    every server, the entry of [allServers], zero when absent, is the number
    of users whose monitor set contains the server.  The counts are int64:
    the users that exist and those the calls can add have to number less than
    2^63. *)
Theorem refcount_invariant (cs : list call) s :
  refcount_consistent s →
  (Z.of_nat (size (users s) + length cs) < 2 ^ 63)%Z →
  ∃ s', run cs s = Done s' ∧ refcount_consistent s'.
Proof.
  revert s. induction cs as [|c cs IH]; intros s Hinv Hsize.
  - by exists s.
  - destruct (step_keeps_counts c s Hinv) as (err & s1 & Hstep & Hinv1 & Hgrow).
    { simpl in Hsize. lia. }
    destruct (IH s1 Hinv1) as (s' & Hrun & Hinv').
    { simpl in Hsize. lia. }
    exists s'. split; [|done]. simpl. by rewrite Hstep.
Qed.

(** *** After Close *)

(** C5.  Once Close has returned, the flag is set; from then on each of the
    five guarded operations returns nil and hands back the store untouched,
    while GetUser and GetMonitorResult answer as they did before Close. *)
Theorem closed_store_refuses_mutations s0 s :
  Close s0 = Some s →
  isClosed s = true
  ∧ (∀ username oldpassword newpassword,
       UpdatePassword username oldpassword newpassword s = Done (None, s))
  ∧ (∀ username password, AddUser username password s = Done (None, s))
  ∧ (∀ username server, AddMonitorServer username server s = Done (None, s))
  ∧ (∀ username server,
       DeleteMonitorServer username server s = Done (None, s))
  ∧ (∀ range server location pr,
       AppendPingRet range server location pr s = Done (None, s))
  ∧ (∀ username, GetUser username s = GetUser username s0)
  ∧ (∀ username server,
       GetMonitorResult username server s
       = GetMonitorResult username server s0).
Proof.
  intros HClose.
  assert (isClosed s = true ∧ users s = users s0 ∧ servers s = servers s0)
    as (Hclosed & Hus & Hsv).
  { unfold Close in HClose. destruct (isClosed s0) eqn:Hc0.
    - by inversion HClose; subst.
    - destruct (0 <? closeCounter s0)%Z; [done|].
      by inversion HClose; subst. }
  split; [done|].
  repeat split; intros;
    try (by apply do_closed).
  - unfold GetUser, withReadLock. by rewrite Hus.
  - unfold GetMonitorResult, withReadLock. by rewrite Hus, Hsv.
Qed.

(** *** Registering and binding an engine *)

Section binding_properties.
Context `{!StoreEngineInit E}.

(** X1.  Once Register has been called for a name, whether it succeeded or
    not, the name is taken: any further Register of that name returns the
    "already exist" error and leaves the registry as it is.  Register never
    replaces a constructor, and on a free name it stores the one given. *)
Theorem Register_never_replaces
    (engineName : string) (f g : unit → E) (engines : gmap string (unit → E)) :
  let engines1 := (Register engineName f engines).2 in
  is_Some (engines1 !! engineName)
  ∧ (engines !! engineName = None → engines1 !! engineName = Some f)
  ∧ (∀ name h, engines !! name = Some h → engines1 !! name = Some h)
  ∧ Register engineName g engines1
    = (Some (Errorf ("engine " +:+ engineName +:+ " already exist")),
       engines1).
Proof.
  intros engines1. unfold engines1, Register.
  destruct (engines !! engineName) as [f0|] eqn:Hname; simpl.
  - rewrite Hname. split; [by eexists|]. split; [done|]. split; done.
  - rewrite lookup_insert_eq. split; [by eexists|]. split; [done|].
    split; [|done]. intros name h Hh.
    rewrite lookup_insert_ne; [done|]. intros ->. by rewrite Hname in Hh.
Qed.

Lemma seed_servers_app keys AddServerChan :
  seed_servers keys AddServerChan = AddServerChan ++ keys.
Proof.
  revert AddServerChan. induction keys as [|k keys IH]; intros ch; simpl.
  - by rewrite app_nil_r.
  - by rewrite IH, <- app_assoc.
Qed.

(** X2.  After Register has stored a constructor under a free name,
    SetStoreEngine with that name does not panic: it makes the engine with
    that constructor, gives it the configuration and takes the three maps from
    its Init; the store it returns runs on that engine, has nothing on
    KickServerChan, and keeps the counter and the flag of the store it was
    called on.  With a name that is still not registered it panics. *)
Theorem SetStoreEngine_after_Register {E0}
    (engines : gmap string (unit → E)) (f : unit → E) (range : key_order)
    (engineName config : string) (s : Store E0) :
  engines !! engineName = None →
  let engines1 := (Register engineName f engines).2 in
  (∃ s',
     SetStoreEngine engines1 range engineName config s = Done s'
     ∧ (servers s', users s', allServers s')
       = (Init (LoadConfig config (f ()))).1
     ∧ storeEngine s' = (Init (LoadConfig config (f ()))).2
     ∧ KickServerChan s' = []
     ∧ closeCounter s' = closeCounter s
     ∧ isClosed s' = isClosed s)
  ∧ (∀ other,
       engines1 !! other = None →
       SetStoreEngine engines1 range other config s = Panic).
Proof.
  intros Hfree engines1. unfold engines1, Register. rewrite Hfree. simpl.
  split.
  - unfold SetStoreEngine. rewrite lookup_insert_eq.
    destruct (Init (LoadConfig config (f ()))) as [[[sv us] all] e].
    by eexists.
  - intros other Hother. unfold SetStoreEngine. by rewrite Hother.
Qed.

(** X3.  The store SetStoreEngine returns has on AddServerChan every server
    that has an entry in [allServers], each exactly once, and nothing else;
    their number is at most the capacity [l] the channel is made with, which
    is never below 1024: the seeding sends find room. *)
Theorem SetStoreEngine_seeds_AddServerChan {E0}
    (engines : gmap string (unit → E)) (range : key_order)
    (engineName config : string) (s : Store E0) s' :
  SetStoreEngine engines range engineName config s = Done s' →
  NoDup (AddServerChan s')
  ∧ (∀ server,
       server ∈ AddServerChan s' ↔ is_Some (allServers s' !! server))
  ∧ length (AddServerChan s') ≤ server_chan_len (allServers s')
  ∧ 1024 ≤ server_chan_len (allServers s').
Proof.
  unfold SetStoreEngine. destruct (engines !! engineName) as [f|]; [|done].
  destruct (Init (LoadConfig config (f ()))) as [[[sv us] all] e].
  intros [= <-]. simpl. rewrite seed_servers_app. simpl.
  pose proof (keys_of_perm range all) as Hperm.
  split; [|split; [|split]].
  - rewrite Hperm. apply NoDup_fst_map_to_list.
  - intros server. rewrite Hperm. rewrite list_elem_of_fmap. split.
    + intros ([k c] & -> & Hin). simpl.
      apply elem_of_map_to_list in Hin. by eexists.
    + intros [c Hc]. exists (server, c). split; [done|].
      by apply elem_of_map_to_list.
  - rewrite Hperm, length_fmap, length_map_to_list.
    unfold server_chan_len. simpl. case_bool_decide; lia.
  - unfold server_chan_len. simpl.
    change _MIN_LEN_SERVER_CHAN with 1024. case_bool_decide; lia.
Qed.

End binding_properties.

(** *** The guard around a sequence of calls *)





(** *** Users: what a caller reads back *)

(** X5.  On an open store, after AddUser for a free username, GetUser finds
    a user with the given password, whatever the engine answered, and every
    other username reads as before; a second AddUser for the same username is
    refused with "already exist" and the password stays the first one. *)
Theorem AddUser_then_GetUser username password1 password2 s :
  isClosed s = false →
  users s !! username = None →
  ∃ err1 s1,
    AddUser username password1 s = Done (err1, s1)
    ∧ Password <$> GetUser username s1 = Some password1
    ∧ (∀ other, other ≠ username → GetUser other s1 = GetUser other s)
    ∧ ∃ s2,
        AddUser username password2 s1
        = Done (Some (Errorf ("User " +:+ username +:+ " already exist")), s2)
        ∧ GetUser username s2 = GetUser username s1.
Proof.
  intros Hopen Hfree. unfold AddUser at 1. enter_open Hopen. rewrite Hfree.
  reduce_store.
  destruct (WriteUser username (set_Password password1 newUser)
              (storeEngine s)) as [r e].
  eexists _, _. split; [done|].
  unfold GetUser, withReadLock. reduce_store.
  split; [by rewrite lookup_insert_eq|]. split.
  { intros other Hother. by rewrite lookup_insert_ne. }
  unfold AddUser. rewrite do_open by exact Hopen.
  unfold withWriteLock. reduce_store. rewrite lookup_insert_eq. reduce_store.
  eexists. split; [done|]. reduce_store. apply lookup_insert_eq.
Qed.

(** X6.  On an open store, UpdatePassword with an old password that is not
    the stored one returns the incorrect-password error and leaves the whole
    store as it was, the engine included. *)
Theorem UpdatePassword_incorrect_password
    username oldpassword newpassword u s :
  isClosed s = false →
  int64_range (closeCounter s) →
  users s !! username = Some u →
  Password u ≠ oldpassword →
  UpdatePassword username oldpassword newpassword s
  = Done (Some _ERROR_INCORRECT_PASSWORD, s).
Proof.
  intros Hopen Hc Hu Hpw. unfold UpdatePassword. enter_open Hopen.
  rewrite Hu, bool_decide_eq_true_2 by done. same_store Hc s.
Qed.

(** X7.  On an open store, UpdatePassword with the stored password changes
    the password and nothing else: GetUser then finds the new password with
    the same monitor set, the other users, the ping results, the counts and
    the channels are as before.  This holds whatever the engine answered, so
    from then on the old password is refused. *)
Theorem UpdatePassword_then_GetUser username oldpassword newpassword u s :
  isClosed s = false →
  users s !! username = Some u →
  Password u = oldpassword →
  oldpassword ≠ newpassword →
  ∃ err s1 u1,
    UpdatePassword username oldpassword newpassword s = Done (err, s1)
    ∧ GetUser username s1 = Some u1
    ∧ Password u1 = newpassword
    ∧ MonitorServers u1 = MonitorServers u
    ∧ (∀ other, other ≠ username → GetUser other s1 = GetUser other s)
    ∧ servers s1 = servers s
    ∧ allServers s1 = allServers s
    ∧ AddServerChan s1 = AddServerChan s
    ∧ KickServerChan s1 = KickServerChan s
    ∧ ∃ s2,
        UpdatePassword username oldpassword newpassword s1
        = Done (Some _ERROR_INCORRECT_PASSWORD, s2)
        ∧ users s2 = users s1.
Proof.
  intros Hopen Hu Hpw Hne. unfold UpdatePassword at 1. enter_open Hopen.
  rewrite Hu, bool_decide_eq_false_2 by (intros Hx; by apply Hx).
  reduce_store.
  destruct (WriteUser username (set_Password newpassword u) (storeEngine s))
    as [r e].
  eexists _, _, (set_Password newpassword u). split; [done|].
  unfold GetUser, withReadLock. reduce_store.
  split; [by rewrite lookup_insert_eq|]. split; [done|]. split; [done|].
  split.
  { intros other Hother. by rewrite lookup_insert_ne. }
  do 4 (split; [done|]).
  unfold UpdatePassword. rewrite do_open by exact Hopen.
  unfold withReadLock. reduce_store. rewrite lookup_insert_eq.
  rewrite bool_decide_eq_true_2 by (simpl; congruence).
  reduce_store. by eexists.
Qed.

(** *** Monitor operations: refusals *)

(** X8.  On an open store, AddMonitorServer for an unknown user returns
    "User ... not exist", and for a user who monitors the server already it
    returns "... is already in monitoring list"; either way the whole store is
    as it was: no count changes, nothing is sent, the engine is not asked. *)
Theorem AddMonitorServer_refusals username server s :
  isClosed s = false →
  int64_range (closeCounter s) →
  (users s !! username = None →
   AddMonitorServer username server s
   = Done (Some (Errorf ("User " +:+ username +:+ " not exist")), s))
  ∧ (∀ u,
       users s !! username = Some u →
       monitors u server = true →
       AddMonitorServer username server s
       = Done (Some (Errorf (server +:+ " is already in monitoring list")),
               s)).
Proof.
  intros Hopen Hc. split.
  - intros Hu. unfold AddMonitorServer. enter_open Hopen. rewrite Hu.
    same_store Hc s.
  - intros u Hu Hm. unfold AddMonitorServer. enter_open Hopen.
    rewrite Hu, Hm. same_store Hc s.
Qed.

(** X9.  On an open store, DeleteMonitorServer for an unknown user returns
    "user ... not exist" and leaves the whole store as it was: nothing is
    sent on KickServerChan and the engine is not asked. *)
Theorem DeleteMonitorServer_unknown_user username server s :
  isClosed s = false →
  int64_range (closeCounter s) →
  users s !! username = None →
  DeleteMonitorServer username server s
  = Done (Some (Errorf ("user " +:+ username +:+ " not exist")), s).
Proof.
  intros Hopen Hc Hu. unfold DeleteMonitorServer. enter_open Hopen.
  rewrite Hu. same_store Hc s.
Qed.

(** *** Monitor operations: subscribing and reading *)

(** X10.  On an open store, GetMonitorResult follows the subscription.
    After AddMonitorServer by a user who did not monitor the server, it
    returns no error and the ping results the store holds for the server;
    after DeleteMonitorServer by a user who monitored it, it returns "You are
    not monitoring ..." and no results.  Both hold whatever the engine
    answered. *)
Theorem GetMonitorResult_follows_subscription username server u s :
  isClosed s = false →
  users s !! username = Some u →
  (monitors u server = false →
   ∃ err s1,
     AddMonitorServer username server s = Done (err, s1)
     ∧ GetMonitorResult username server s1 = (servers s !! server, None))
  ∧ (monitors u server = true →
     ∃ err s1,
       DeleteMonitorServer username server s = Done (err, s1)
       ∧ GetMonitorResult username server s1
         = (None, Some (Errorf ("You are not monitoring " +:+ server)))).
Proof.
  intros Hopen Hu. split; intros Hm.
  - unfold AddMonitorServer. enter_open Hopen. rewrite Hu, Hm.
    set (u' := set_MonitorServers (<[server := true]> (MonitorServers u)) u).
    reduce_store.
    destruct (allServers s !! server); reduce_store;
      destruct (WriteUser username u' (storeEngine s)) as [r e];
      (eexists _, _; split; [done|]);
      unfold GetMonitorResult, withReadLock; reduce_store;
      rewrite lookup_insert_eq; unfold u'; simpl;
      by rewrite lookup_insert_eq.
  - unfold DeleteMonitorServer. enter_open Hopen. rewrite Hu, Hm.
    set (u' := set_MonitorServers (delete server (MonitorServers u)) u).
    reduce_store.
    match goal with |- context [(?c <=? 0)%Z] => destruct (c <=? 0)%Z end;
      reduce_store;
      destruct (WriteUser username u' (storeEngine s)) as [r e];
      (eexists _, _; split; [done|]);
      unfold GetMonitorResult, withReadLock; reduce_store;
      rewrite lookup_insert_eq; unfold u'; simpl;
      by rewrite lookup_delete_eq.
Qed.

(** X11.  On an open store, AddMonitorServer followed by DeleteMonitorServer
    for the same user and server undoes itself: when the user had no entry for
    the server and the count of the server was absent or a positive int64, the
    users, the counts and the ping results are afterwards as before.  If the
    server had no count, it has been sent once on AddServerChan and once on
    KickServerChan; otherwise nothing has been sent. *)
Theorem AddMonitorServer_then_DeleteMonitorServer username server u s :
  isClosed s = false →
  users s !! username = Some u →
  MonitorServers u !! server = None →
  (∀ c, allServers s !! server = Some c → (0 < c)%Z ∧ int64_range c) →
  ∃ err1 s1,
    AddMonitorServer username server s = Done (err1, s1)
    ∧ ∃ err2 s2,
        DeleteMonitorServer username server s1 = Done (err2, s2)
        ∧ users s2 = users s
        ∧ allServers s2 = allServers s
        ∧ servers s2 = servers s
        ∧ let sent :=
            match allServers s !! server with
            | None => [server]
            | Some _ => []
            end in
          AddServerChan s2 = AddServerChan s ++ sent
          ∧ KickServerChan s2 = KickServerChan s ++ sent.
Proof.
  intros Hopen Hu Hfree Hcount.
  assert (monitors u server = false) as Hm by (unfold monitors; by rewrite Hfree).
  set (u' := set_MonitorServers (<[server := true]> (MonitorServers u)) u).
  assert (monitors u' server = true) as Hm'.
  { unfold monitors, u'. simpl. by rewrite lookup_insert_eq. }
  assert (set_MonitorServers (delete server (MonitorServers u')) u' = u)
    as Hback.
  { unfold u', set_MonitorServers. simpl. rewrite delete_insert_eq.
    rewrite (delete_id _ _ Hfree). by destruct u. }
  unfold AddMonitorServer. enter_open Hopen. rewrite Hu, Hm. fold u'.
  reduce_store.
  destruct (allServers s !! server) as [c|] eqn:Hs; reduce_store;
    destruct (WriteUser username u' (storeEngine s)) as [r1 e1];
    (eexists _, _; split; [done|]);
    unfold DeleteMonitorServer; rewrite do_open by exact Hopen;
    unfold withWriteLock; reduce_store;
    rewrite lookup_insert_eq, Hm', Hback; reduce_store;
    rewrite !count_of_insert, !decide_True by done;
    unfold count_of; rewrite Hs; simpl default;
    rewrite !insert_insert_eq, (insert_id _ _ _ Hu).
  - destruct (Hcount c eq_refl) as [Hpos Hrange].
    change (wrap64 (c + 1) - 1)%Z with (wrap64 (c + 1) + -1)%Z.
    rewrite (wrap64_release_acquire c Hrange).
    rewrite (proj2 (Z.leb_gt _ _)) by done. reduce_store.
    destruct (WriteUser username u e1) as [r2 e2]. reduce_store.
    eexists _, _. split; [done|]. reduce_store.
    rewrite (insert_id _ _ _ Hs), !app_nil_r. done.
  - change (wrap64 (0 + 1) - 1)%Z with 0%Z.
    rewrite (wrap64_id 0) by (unfold int64_range; lia).
    simpl. reduce_store.
    destruct (WriteUser username u e1) as [r2 e2]. reduce_store.
    eexists _, _. split; [done|]. reduce_store.
    rewrite delete_insert_eq, (delete_id _ _ Hs). done.
Qed.

(** *** Notifications *)

(** In a consistent store with positive entries, a server has an entry
    exactly when some user monitors it. *)
Lemma entry_iff_monitored s server :
  refcount_consistent s →
  entries_positive s →
  allServers s !! server = None ↔ monitor_count server (users s) = 0.
Proof.
  intros Hinv Hpos. specialize (Hinv server). unfold count_of in Hinv.
  destruct (allServers s !! server) as [c|] eqn:Hs; simpl in Hinv.
  - specialize (Hpos server c Hs). split; [done|lia].
  - split; [lia|done].
Qed.

(** X13.  On an open store whose counts are right and whose entries are all
    positive, an AddMonitorServer that goes through (the user exists and does
    not monitor the server yet) raises the number of users monitoring the
    server by one and sends the server on AddServerChan exactly when that
    number was zero; it sends nothing on KickServerChan. *)
Theorem AddMonitorServer_sends_on_first_monitor username server u s :
  isClosed s = false →
  refcount_consistent s →
  entries_positive s →
  users s !! username = Some u →
  monitors u server = false →
  ∃ err s',
    AddMonitorServer username server s = Done (err, s')
    ∧ monitor_count server (users s') = S (monitor_count server (users s))
    ∧ AddServerChan s'
      = AddServerChan s
        ++ (if bool_decide (monitor_count server (users s) = 0)
            then [server] else [])
    ∧ KickServerChan s' = KickServerChan s.
Proof.
  intros Hopen Hinv Hpos Hu Hm.
  pose proof (entry_iff_monitored s server Hinv Hpos) as Hentry.
  set (u' := set_MonitorServers (<[server := true]> (MonitorServers u)) u).
  assert (monitor_count server (<[username := u']> (users s))
          = S (monitor_count server (users s))) as Hmc.
  { pose proof (monitor_count_update server username u u' (users s) Hu) as H.
    unfold u' in H at 2. rewrite monitors_insert_true, decide_True in H by done.
    rewrite Hm in H. lia. }
  unfold AddMonitorServer. enter_open Hopen. rewrite Hu, Hm. fold u'.
  reduce_store.
  destruct (allServers s !! server) as [c|] eqn:Hs; reduce_store;
    destruct (WriteUser username u' (storeEngine s)) as [r e];
    (eexists _, _; split; [done|]); reduce_store;
    (split; [exact Hmc|]); (split; [|done]).
  - rewrite bool_decide_eq_false_2; [by rewrite app_nil_r|].
    intros Hz. apply Hentry in Hz. congruence.
  - rewrite bool_decide_eq_true_2; [done|]. by apply Hentry.
Qed.

(** X14.  On an open store whose counts are right, DeleteMonitorServer for
    an existing user sends the server on KickServerChan exactly when no user
    monitors the server once the call is done, whether or not the call took
    anyone off; after such a send the server has no entry in [allServers].
    It sends nothing on AddServerChan. *)
Theorem DeleteMonitorServer_kicks_when_unmonitored username server u s :
  isClosed s = false →
  refcount_consistent s →
  (Z.of_nat (size (users s)) < 2 ^ 63)%Z →
  users s !! username = Some u →
  ∃ err s',
    DeleteMonitorServer username server s = Done (err, s')
    ∧ KickServerChan s'
      = KickServerChan s
        ++ (if bool_decide (monitor_count server (users s') = 0)
            then [server] else [])
    ∧ (monitor_count server (users s') = 0 → allServers s' !! server = None)
    ∧ AddServerChan s' = AddServerChan s.
Proof.
  intros Hopen Hinv Hsize Hu.
  pose proof (Hinv server) as Hcount.
  pose proof (monitor_count_le server (users s)) as Hle.
  unfold DeleteMonitorServer. enter_open Hopen. rewrite Hu.
  destruct (monitors u server) eqn:Hm; reduce_store.
  - set (u' := set_MonitorServers (delete server (MonitorServers u)) u).
    assert (S (monitor_count server (<[username := u']> (users s)))
            = monitor_count server (users s)) as Hmc.
    { pose proof (monitor_count_update server username u u' (users s) Hu)
        as H.
      unfold u' in H at 2. rewrite monitors_delete, decide_True in H by done.
      rewrite Hm in H. lia. }
    rewrite count_of_insert, decide_True by done.
    rewrite wrap64_id by (unfold int64_range; lia).
    destruct (count_of (allServers s) server - 1 <=? 0)%Z eqn:Hzero;
      reduce_store;
      destruct (WriteUser username u' (storeEngine s)) as [r e];
      (eexists _, _; split; [done|]); reduce_store.
    + apply Z.leb_le in Hzero.
      rewrite bool_decide_eq_true_2 by lia.
      split; [done|]. split; [|done]. intros _. apply lookup_delete_eq.
    + apply Z.leb_gt in Hzero.
      rewrite bool_decide_eq_false_2 by lia.
      rewrite app_nil_r. split; [done|]. split; [lia|done].
  - destruct (count_of (allServers s) server <=? 0)%Z eqn:Hzero;
      reduce_store;
      destruct (WriteUser username u (storeEngine s)) as [r e];
      (eexists _, _; split; [done|]); reduce_store.
    + apply Z.leb_le in Hzero.
      rewrite bool_decide_eq_true_2 by lia.
      split; [done|]. split; [|done]. intros _. apply lookup_delete_eq.
    + apply Z.leb_gt in Hzero.
      rewrite bool_decide_eq_false_2 by lia.
      rewrite app_nil_r. split; [done|]. split; [lia|done].
Qed.

(** *** What the user and ping operations leave alone *)

Lemma AddUser_quiet username password s :
  ∃ err s',
    AddUser username password s = Done (err, s')
    ∧ allServers s' = allServers s ∧ servers s' = servers s
    ∧ AddServerChan s' = AddServerChan s
    ∧ KickServerChan s' = KickServerChan s.
Proof.
  destruct (isClosed s) eqn:Hopen.
  { exists None, s. unfold AddUser. by rewrite do_closed. }
  unfold AddUser. enter_open Hopen.
  destruct (users s !! username); reduce_store;
    repeat match goal with
    | |- context [WriteUser ?n ?u ?e] => destruct (WriteUser n u e)
    end; by eexists _, _.
Qed.

Lemma UpdatePassword_quiet username oldpassword newpassword s :
  ∃ err s',
    UpdatePassword username oldpassword newpassword s = Done (err, s')
    ∧ allServers s' = allServers s ∧ servers s' = servers s
    ∧ AddServerChan s' = AddServerChan s
    ∧ KickServerChan s' = KickServerChan s.
Proof.
  destruct (isClosed s) eqn:Hopen.
  { exists None, s. unfold UpdatePassword. by rewrite do_closed. }
  unfold UpdatePassword. enter_open Hopen.
  destruct (users s !! username); [case_bool_decide|]; reduce_store;
    repeat match goal with
    | |- context [WriteUser ?n ?u ?e] => destruct (WriteUser n u e)
    end; by eexists _, _.
Qed.

Lemma AppendPingRet_quiet (range : range_order) server location pr s :
  ∃ err s',
    AppendPingRet range server location pr s = Done (err, s')
    ∧ allServers s' = allServers s ∧ users s' = users s
    ∧ AddServerChan s' = AddServerChan s
    ∧ KickServerChan s' = KickServerChan s.
Proof.
  destruct (isClosed s) eqn:Hopen.
  { exists None, s. unfold AppendPingRet. by rewrite do_closed. }
  destruct (decide (count_of (allServers s) server ≤ 0)%Z) as [Hle|Hgt].
  - unfold AppendPingRet. enter_open Hopen.
    rewrite (proj2 (Z.leb_le _ _)) by done. reduce_store. by eexists _, _.
  - destruct (find_max
                (range (<[location := location_prs s server location]>
                          (server_locs s server))) 0 "") as [m loc] eqn:Hfind.
    destruct (AppendPingRet_monitored range server location pr s m loc)
      as (padPrs & _ & _ & Hrun); [done|lia|done|].
    eexists _, _. split; [exact Hrun|]. by reduce_store.
Qed.


(** The entries stay positive over one call. *)
Lemma step_keeps_positive c s err s' :
  refcount_consistent s →
  entries_positive s →
  (Z.of_nat (size (users s)) < 2 ^ 63)%Z →
  step c s = Done (err, s') →
  entries_positive s'.
Proof.
  intros Hinv Hpos Hsize Hstep.
  assert (∀ a : Store E, allServers a = allServers s → entries_positive a)
    as Hsame.
  { intros a Ha server c0. rewrite Ha. apply Hpos. }
  destruct c as [username password|username oldpassword newpassword
                |username server|username server|range server location pr];
    simpl in Hstep.
  - destruct (AddUser_quiet username password s) as (? & ? & Hrun & Ha & _).
    rewrite Hrun in Hstep. inversion Hstep; subst. by apply Hsame.
  - destruct (UpdatePassword_quiet username oldpassword newpassword s)
      as (? & ? & Hrun & Ha & _).
    rewrite Hrun in Hstep. inversion Hstep; subst. by apply Hsame.
  - destruct (isClosed s) eqn:Hopen.
    { unfold AddMonitorServer in Hstep. rewrite do_closed in Hstep by done.
      inversion Hstep; subst. done. }
    unfold AddMonitorServer in Hstep. rewrite do_open in Hstep by done.
    unfold withReadLock in Hstep. reduce_store.
    cbn [acquire set_closeCounter users] in Hstep. revert Hstep.
    destruct (users s !! username) as [u|] eqn:Hu; reduce_store.
    2: { intros [= <- <-]. by apply Hsame. }
    destruct (monitors u server) eqn:Hm; reduce_store.
    { intros [= <- <-]. by apply Hsame. }
    pose proof (monitor_count_update_le server username u (users s) Hu Hm).
    pose proof (Hinv server) as Hcount.
    destruct (allServers s !! server) eqn:Hs; reduce_store;
      match goal with
      | |- context [WriteUser ?n ?u ?e] => destruct (WriteUser n u e)
      end; intros [= <- <-]; intros server' c'; reduce_store;
      (destruct (decide (server = server')) as [<-|Hne];
       [rewrite lookup_insert_eq; intros [= <-];
        rewrite wrap64_id by (unfold int64_range; lia); lia
       |rewrite lookup_insert_ne by done; apply Hpos]).
  - destruct (isClosed s) eqn:Hopen.
    { unfold DeleteMonitorServer in Hstep. rewrite do_closed in Hstep by done.
      inversion Hstep; subst. done. }
    unfold DeleteMonitorServer in Hstep. rewrite do_open in Hstep by done.
    unfold withWriteLock in Hstep. reduce_store.
    cbn [acquire set_closeCounter users] in Hstep. revert Hstep.
    destruct (users s !! username) as [u|] eqn:Hu; reduce_store.
    2: { intros [= <- <-]. by apply Hsame. }
    pose proof (Hinv server) as Hcount.
    pose proof (monitor_count_le server (users s)) as Hle.
    destruct (monitors u server) eqn:Hm; reduce_store.
    + pose proof (monitor_count_lookup server username u (users s) Hu) as H1.
      rewrite Hm in H1.
      rewrite count_of_insert, decide_True by done.
      rewrite wrap64_id by (unfold int64_range; lia).
      destruct (count_of (allServers s) server - 1 <=? 0)%Z eqn:Hzero;
        reduce_store;
        match goal with
        | |- context [WriteUser ?n ?u ?e] => destruct (WriteUser n u e)
        end; intros [= <- <-]; intros server' c'; reduce_store.
      * destruct (decide (server = server')) as [<-|Hne].
        -- by rewrite lookup_delete_eq.
        -- rewrite lookup_delete_ne, lookup_insert_ne by done. apply Hpos.
      * apply Z.leb_gt in Hzero.
        destruct (decide (server = server')) as [<-|Hne].
        -- rewrite lookup_insert_eq. intros [= <-]. lia.
        -- rewrite lookup_insert_ne by done. apply Hpos.
    + destruct (count_of (allServers s) server <=? 0)%Z eqn:Hzero;
        reduce_store;
        match goal with
        | |- context [WriteUser ?n ?u ?e] => destruct (WriteUser n u e)
        end; intros [= <- <-]; intros server' c'; reduce_store.
      * destruct (decide (server = server')) as [<-|Hne].
        -- by rewrite lookup_delete_eq.
        -- rewrite lookup_delete_ne by done. apply Hpos.
      * apply Hpos.
  - destruct (AppendPingRet_quiet range server location pr s)
      as (? & ? & Hrun & Ha & _).
    rewrite Hrun in Hstep. inversion Hstep; subst. by apply Hsame.
Qed.

(** X12.  From a store whose counts are right and whose entries of
    [allServers] are all positive, any sequence of calls leaves a store of the
    same kind: no entry is ever zero or negative, so a server has an entry
    exactly when some user monitors it, which is also exactly when
    AppendPingRet accepts it.  (The users that exist and those the calls can
    add number less than 2^63.) *)
Theorem entries_stay_positive (cs : list call) s :
  refcount_consistent s →
  entries_positive s →
  (Z.of_nat (size (users s) + length cs) < 2 ^ 63)%Z →
  ∃ s',
    run cs s = Done s'
    ∧ entries_positive s'
    ∧ ∀ server,
        (is_Some (allServers s' !! server)
         ↔ 0 < monitor_count server (users s'))
        ∧ ((0 < count_of (allServers s') server)%Z
           ↔ 0 < monitor_count server (users s')).
Proof.
  revert s. induction cs as [|c cs IH]; intros s Hinv Hpos Hsize.
  - exists s. split; [done|]. split; [done|]. intros server.
    pose proof (entry_iff_monitored s server Hinv Hpos) as Hentry.
    pose proof (Hinv server) as Hcount. split; [|lia].
    rewrite <- not_eq_None_Some. rewrite Hentry. lia.
  - destruct (step_keeps_counts c s Hinv) as (err & s1 & Hstep & Hinv1 & Hgrow).
    { simpl in Hsize. lia. }
    assert (entries_positive s1) as Hpos1.
    { eapply step_keeps_positive; [exact Hinv|exact Hpos| |exact Hstep].
      simpl in Hsize. lia. }
    destruct (IH s1 Hinv1 Hpos1) as (s' & Hrun & Hrest).
    { simpl in Hsize. lia. }
    exists s'. split; [|done]. simpl. by rewrite Hstep.
Qed.

(** *** Ping results: what an append leaves and how locations line up *)

(** The ping results after an append for a monitored server. *)
Lemma AppendPingRet_servers (range : range_order) server location pr s m loc :
  isClosed s = false →
  (0 < count_of (allServers s) server)%Z →
  find_max
    (range (<[location := location_prs s server location]>
              (server_locs s server))) 0 "" = (m, loc) →
  ∃ err s' padPrs,
    AppendPingRet range server location pr s = Done (err, s')
    ∧ servers s'
      = <[server := <[location := location_prs s server location
                                   ++ padPrs ++ [pr]]>
                      (server_locs s server)]> (servers s)
    ∧ (m = 0 → padPrs = [])
    ∧ (m ≠ 0 → ∃ longest last,
         <[location := location_prs s server location]>
           (server_locs s server) !! loc = Some longest
         ∧ length longest = m
         ∧ longest !! (m - 1) = Some last
         ∧ padPrs
           = (λ p, defaultPingRet (Time p))
               <$> take ((if bool_decide (Time last = Time pr)
                          then m - 1 else m)
                         - length (location_prs s server location))
                     (drop (length (location_prs s server location))
                        longest)).
Proof.
  intros Hopen Hcount Hfind.
  destruct (AppendPingRet_monitored range server location pr s m loc)
    as (padPrs & Hzero & Hpos & Hrun); [done..|].
  eexists _, _, padPrs. split; [exact Hrun|]. by reduce_store.
Qed.

(** X16.  AppendPingRet always returns, and it touches one sequence only:
    the ping results of every other server and of every other location of the
    same server are as before, and the sequence of the location still starts
    with what it held. *)
Theorem AppendPingRet_touches_one_location
    (range : range_order) server location pr s :
  ∃ err s',
    AppendPingRet range server location pr s = Done (err, s')
    ∧ (∀ server', server' ≠ server → servers s' !! server' = servers s !! server')
    ∧ (∀ location',
         location' ≠ location →
         server_locs s' server !! location'
         = server_locs s server !! location')
    ∧ location_prs s server location
      `prefix_of` location_prs s' server location.
Proof.
  destruct (isClosed s) eqn:Hopen.
  { exists None, s. unfold AppendPingRet. by rewrite do_closed. }
  destruct (decide (count_of (allServers s) server ≤ 0)%Z) as [Hle|Hgt].
  - unfold AppendPingRet. enter_open Hopen.
    rewrite (proj2 (Z.leb_le _ _)) by done. reduce_store.
    eexists _, _. split; [done|].
    unfold location_prs, server_locs. by reduce_store.
  - destruct (find_max
                (range (<[location := location_prs s server location]>
                          (server_locs s server))) 0 "") as [m loc] eqn:Hfind.
    destruct (AppendPingRet_servers range server location pr s m loc)
      as (err & s' & padPrs & Hrun & Hservers & _); [done|lia|done|].
    exists err, s'. split; [exact Hrun|].
    assert (server_locs s' server
            = <[location := location_prs s server location ++ padPrs ++ [pr]]>
                (server_locs s server)) as Hlocs.
    { unfold server_locs at 1. by rewrite Hservers, lookup_insert_eq. }
    split; [|split].
    + intros server' Hne. by rewrite Hservers, lookup_insert_ne.
    + intros location' Hne. by rewrite Hlocs, lookup_insert_ne.
    + unfold location_prs at 2. rewrite Hlocs, lookup_insert_eq. simpl.
      by eexists.
Qed.

(** X17.  On an open store, after AppendPingRet for a monitored server the
    location it appended to is as long as any location of that server, and at
    most one sample longer than the longest one was before the call. *)
Theorem AppendPingRet_catches_up (range : range_order) server location pr s :
  isClosed s = false →
  (0 < count_of (allServers s) server)%Z →
  ∃ err s',
    AppendPingRet range server location pr s = Done (err, s')
    ∧ (∀ loc prs,
         server_locs s' server !! loc = Some prs →
         length prs ≤ length (location_prs s' server location))
    ∧ (∀ n,
         (∀ loc prs, server_locs s server !! loc = Some prs → length prs ≤ n) →
         length (location_prs s' server location) ≤ S n).
Proof.
  intros Hopen Hcount.
  set (cur := location_prs s server location).
  set (locs := <[location := cur]> (server_locs s server)).
  destruct (find_max (range locs) 0 "") as [m loc] eqn:Hfind.
  pose proof (find_max_range range locs m loc Hfind) as [Hall Hwhich].
  destruct (AppendPingRet_servers range server location pr s m loc)
    as (err & s' & padPrs & Hrun & Hservers & Hzero & Hpos); [done..|].
  fold cur in Hservers, Hpos. fold locs in Hpos.
  exists err, s'. split; [exact Hrun|].
  assert (server_locs s' server
          = <[location := cur ++ padPrs ++ [pr]]> (server_locs s server))
    as Hlocs.
  { unfold server_locs at 1. by rewrite Hservers, lookup_insert_eq. }
  assert (location_prs s' server location = cur ++ padPrs ++ [pr]) as Hnew.
  { unfold location_prs. by rewrite Hlocs, lookup_insert_eq. }
  assert (length cur ≤ m) as Hcur.
  { apply (Hall location). apply lookup_insert_eq. }
  (* the length of the new sequence, between [m] and [m + 1] *)
  assert (m ≤ length (cur ++ padPrs ++ [pr]) ≤ S m) as Hlen.
  { rewrite !length_app. simpl. destruct (decide (m = 0)) as [Hm|Hm].
    - rewrite (Hzero Hm). simpl. lia.
    - destruct (Hpos Hm) as (longest & last & _ & Hl & _ & ->).
      rewrite length_fmap, length_take, length_drop.
      case_bool_decide; lia. }
  rewrite Hnew. split.
  - intros k prs Hk. rewrite Hlocs in Hk.
    destruct (decide (k = location)) as [->|Hne].
    + rewrite lookup_insert_eq in Hk. by inversion Hk.
    + rewrite lookup_insert_ne in Hk by done.
      assert (length prs ≤ m); [|lia].
      apply (Hall k). unfold locs. by rewrite lookup_insert_ne.
  - intros n Hn. assert (m ≤ n); [|lia].
    destruct (decide (m = 0)) as [Hm|Hm]; [lia|].
    destruct (Hpos Hm) as (longest & last & Hlongest & Hl & _).
    unfold locs in Hlongest.
    destruct (decide (loc = location)) as [->|Hne].
    + rewrite lookup_insert_eq in Hlongest.
      assert (cur = longest) as Heq by congruence.
      unfold cur, location_prs in Heq.
      destruct (server_locs s server !! location) as [c|] eqn:Hc;
        simpl in Heq.
      * subst c. rewrite <- Hl. by apply (Hn location).
      * subst longest. simpl in Hl. lia.
    + rewrite lookup_insert_ne in Hlongest by done.
      rewrite <- Hl. by apply (Hn loc).
Qed.

(** X18.  On an open store, when one location of a monitored server is
    strictly longer than all the others, an append to another location lines
    up with it.  If the incoming sample has the Time of the last sample of
    that longest location, it lands at the index of that last sample and the
    two locations end up equally long; otherwise it lands one index further.
    Every index between the old end of the location and the sample holds a
    placeholder with the Time the longest location has at that index. *)
Theorem AppendPingRet_lines_up
    (range : range_order) server location pr s other longest lastpr :
  isClosed s = false →
  (0 < count_of (allServers s) server)%Z →
  server_locs s server !! other = Some longest →
  last longest = Some lastpr →
  location ≠ other →
  (∀ loc prs,
     loc ≠ other →
     server_locs s server !! loc = Some prs →
     length prs < length longest) →
  ∃ err s',
    AppendPingRet range server location pr s = Done (err, s')
    ∧ let k :=
        if bool_decide (Time lastpr = Time pr)
        then length longest - 1 else length longest in
      location_prs s' server location !! k = Some pr
      ∧ length (location_prs s' server location) = S k
      ∧ ∀ i p,
          length (location_prs s server location) ≤ i < k →
          longest !! i = Some p →
          location_prs s' server location !! i
          = Some {| Time := Time p; Ping := "0.000" |}.
Proof.
  intros Hopen Hcount Hother Hlast Hne Hunique.
  set (cur := location_prs s server location).
  set (locs := <[location := cur]> (server_locs s server)).
  destruct (find_max (range locs) 0 "") as [m loc] eqn:Hfind.
  pose proof (find_max_range range locs m loc Hfind) as [Hall Hwhich].
  destruct (AppendPingRet_servers range server location pr s m loc)
    as (err & s' & padPrs & Hrun & Hservers & _ & Hpos); [done..|].
  fold cur in Hservers, Hpos. fold locs in Hpos.
  exists err, s'. split; [exact Hrun|].
  assert (location_prs s' server location = cur ++ padPrs ++ [pr]) as Hnew.
  { unfold location_prs, server_locs.
    rewrite Hservers, lookup_insert_eq. simpl. by rewrite lookup_insert_eq. }
  assert (0 < length longest) as Hnonempty.
  { destruct longest; [done|]. simpl. lia. }
  assert (length cur < length longest) as Hcur.
  { unfold cur, location_prs.
    destruct (server_locs s server !! location) as [c|] eqn:Hc; simpl.
    - by apply (Hunique location).
    - done. }
  (* the search returns the longest location *)
  assert (length longest ≤ m) as Hm.
  { apply (Hall other). unfold locs. by rewrite lookup_insert_ne. }
  destruct Hpos as (longest' & last' & Hlongest' & Hlen & Hlast' & ->); [lia|].
  assert (loc = other ∧ longest' = longest) as [-> ->].
  { unfold locs in Hlongest'.
    destruct (decide (loc = location)) as [->|Hloc].
    - rewrite lookup_insert_eq in Hlongest'.
      assert (cur = longest') as <- by congruence. lia.
    - rewrite lookup_insert_ne in Hlongest' by done.
      destruct (decide (loc = other)) as [->|Hloc'].
      + split; [done|]. congruence.
      + pose proof (Hunique loc longest' Hloc' Hlongest'). lia. }
  assert (last' = lastpr) as ->.
  { rewrite last_lookup in Hlast.
    replace (pred (length longest)) with (m - 1) in Hlast by lia.
    congruence. }
  subst m. rewrite Hnew. intros k.
  assert (length cur ≤ k ≤ length longest) as Hk.
  { unfold k. case_bool_decide; lia. }
  fold k.
  assert (length ((λ p, defaultPingRet (Time p))
                    <$> take (k - length cur) (drop (length cur) longest))
          = k - length cur) as Hpadlen.
  { rewrite length_fmap, length_take, length_drop. lia. }
  split; [|split].
  - rewrite lookup_app_r by lia.
    rewrite lookup_app_r by (rewrite Hpadlen; lia).
    rewrite Hpadlen. by replace (k - length cur - (k - length cur)) with 0 by lia.
  - rewrite !length_app, Hpadlen. simpl. lia.
  - intros i p Hi Hp.
    rewrite lookup_app_r by lia.
    rewrite lookup_app_l by (rewrite Hpadlen; lia).
    rewrite list_lookup_fmap, lookup_take, decide_True by lia.
    rewrite lookup_drop.
    replace (length cur + (i - length cur)) with i by lia.
    by rewrite Hp.
Qed.

(** X19.  On an open store, a user who has the server in the monitor set
    reads back what was appended: after AppendPingRet for a monitored server,
    GetMonitorResult returns no error and a map in which the sequence of the
    location ends with the incoming sample. *)
Theorem AppendPingRet_then_GetMonitorResult
    (range : range_order) username server location pr u s :
  isClosed s = false →
  (0 < count_of (allServers s) server)%Z →
  users s !! username = Some u →
  is_Some (MonitorServers u !! server) →
  ∃ err s' locs prs,
    AppendPingRet range server location pr s = Done (err, s')
    ∧ GetMonitorResult username server s' = (Some locs, None)
    ∧ locs !! location = Some prs
    ∧ last prs = Some pr.
Proof.
  intros Hopen Hcount Hu [b Hkey].
  destruct (find_max
              (range (<[location := location_prs s server location]>
                        (server_locs s server))) 0 "") as [m loc] eqn:Hfind.
  destruct (AppendPingRet_monitored range server location pr s m loc)
    as (padPrs & _ & _ & Hrun); [done..|].
  eexists _, _, _, _. split; [exact Hrun|].
  unfold GetMonitorResult, withReadLock. reduce_store.
  rewrite Hu, Hkey, lookup_insert_eq. split; [done|].
  split; [apply lookup_insert_eq|].
  by rewrite app_assoc, last_snoc.
Qed.

End properties.

(** ** The operations on concrete stores *)

Lemma int64_range_0 : int64_range 0.
Proof. unfold int64_range. lia. Qed.

Lemma empty_store_consistent {E} (e : E) : refcount_consistent (empty_store e).
Proof. intros server. reflexivity. Qed.

(** C2.  A kick without a transition: "alice" exists and monitors nothing,
    "srv1" has no entry in [allServers] and no user monitors it.
    DeleteMonitorServer("alice","srv1") returns nil, the count of "srv1" is
    zero before and after, no monitor set has changed, and yet "srv1" has been
    sent on KickServerChan. *)
Theorem DeleteMonitorServer_kick_without_transition :
  let s := idle_store engine_ok in
  ∃ s',
    DeleteMonitorServer "alice" "srv1" s = Done (None, s')
    ∧ count_of (allServers s) "srv1" = 0%Z
    ∧ count_of (allServers s') "srv1" = 0%Z
    ∧ monitor_count "srv1" (users s) = 0
    ∧ users s' = users s
    ∧ KickServerChan s = []
    ∧ KickServerChan s' = ["srv1"].
Proof. eexists. repeat split; try reflexivity. Qed.

(** [alice_store] is where the first two calls of the scenario lead. *)
Lemma alice_store_reached :
  ∃ e,
    run [Call_AddUser "alice" "pw1"; Call_AddMonitorServer "alice" "srv1"]
        (empty_store engine_ok)
    = Done (alice_store e)
    ∧ length (written e) = 2.
Proof. eexists. split; reflexivity. Qed.

(** The scenario of C3 over the recording engine, with its log. *)
Lemma padding_scenario_witness :
  let p1 := {| Time := "t1"; Ping := "10" |} in
  let p2 := {| Time := "t2"; Ping := "12" |} in
  let placeholder := {| Time := "t1"; Ping := "0.000" |} in
  ∃ s1 s2,
    AppendPingRet range_sorted "srv1" "eu" p1 (alice_store engine_ok)
    = Done (None, s1)
    ∧ AppendPingRet range_sorted "srv1" "us" p2 s1 = Done (None, s2)
    ∧ servers s2 = {["srv1" := {["eu" := [p1]; "us" := [placeholder; p2]]}]}
    ∧ written (storeEngine s2)
      = [BatchWritePingRets_call "srv1" "eu" [p1];
         BatchWritePingRets_call "srv1" "us" [placeholder; p2]].
Proof.
  intros p1 p2 placeholder.
  destruct (padding_scenario engine_ok range_sorted range_sorted)
    as (s1 & s2 & Hfirst & _ & _ & Hsecond & Hservers & Hengine).
  exists s1, s2. split; [exact Hfirst|]. split; [exact Hsecond|].
  split; [exact Hservers|]. rewrite Hengine. reflexivity.
Defined.

Lemma refcount_invariant_witness :
  ∃ s',
    run [Call_AddUser "alice" "pw1";
         Call_AddMonitorServer "alice" "srv1";
         Call_DeleteMonitorServer "alice" "srv1"] (empty_store engine_ok)
    = Done s'
    ∧ refcount_consistent s'.
Proof.
  apply refcount_invariant.
  - apply empty_store_consistent.
  - reflexivity.
Defined.

Lemma AppendPingRet_same_tick_guard_witness :
  let s := sampled_store engine_ok in
  let pr := {| Time := "t1"; Ping := "12" |} in
  ∃ maxLocation longest lastpr err s',
    server_locs s "srv1" !! maxLocation = Some longest
    ∧ (∀ loc prs,
         server_locs s "srv1" !! loc = Some prs →
         length prs ≤ length longest)
    ∧ last longest = Some lastpr
    ∧ AppendPingRet range_sorted "srv1" "us" pr s = Done (err, s')
    ∧ let cur := location_prs s "srv1" "us" in
      let target :=
        if bool_decide (Time lastpr = Time pr)
        then length longest - 1 else length longest in
      location_prs s' "srv1" "us"
      = cur
        ++ ((λ p, {| Time := Time p; Ping := "0.000" |})
              <$> take (target - length cur) (drop (length cur) longest))
        ++ [pr].
Proof.
  apply (AppendPingRet_same_tick_guard range_sorted "srv1" "us"
           {| Time := "t1"; Ping := "12" |} (sampled_store engine_ok)
           "eu" [{| Time := "t1"; Ping := "10" |}]).
  - reflexivity.
  - reflexivity.
  - reflexivity.
  - discriminate.
Defined.

Lemma closed_store_refuses_mutations_witness :
  let s := set_isClosed true (alice_store engine_ok) in
  AddMonitorServer "alice" "srv2" s = Done (None, s)
  ∧ AppendPingRet range_sorted "srv1" "eu" {| Time := "t1"; Ping := "10" |} s
    = Done (None, s)
  ∧ GetUser "alice" s = GetUser "alice" (alice_store engine_ok).
Proof.
  destruct (closed_store_refuses_mutations (alice_store engine_ok)
              (set_isClosed true (alice_store engine_ok)) eq_refl)
    as (_ & _ & _ & HAdd & _ & HAppend & HGet & _).
  split; [apply HAdd|]. split; [apply HAppend|apply HGet].
Defined.


Lemma AppendPingRet_server_not_found_witness :
  let s := alice_store engine_ok in
  let pr := {| Time := "t1"; Ping := "10" |} in
  ∃ err s',
    AppendPingRet range_sorted "srv9" "eu" pr s = Done (err, s')
    ∧ (err = Some (Errorf ("server " +:+ "srv9" +:+ " is not exist"))
       ↔ (count_of (allServers s) "srv9" ≤ 0)%Z)
    ∧ ((count_of (allServers s) "srv9" ≤ 0)%Z → servers s' = servers s)
    ∧ ((0 < count_of (allServers s) "srv9")%Z →
       ∃ padPrs,
         location_prs s' "srv9" "eu"
         = location_prs s "srv9" "eu" ++ padPrs ++ [pr]).
Proof.
  apply (AppendPingRet_server_not_found range_sorted "srv9" "eu"
           {| Time := "t1"; Ping := "10" |} (alice_store engine_ok)).
  reflexivity.
Defined.



Lemma UpdatePassword_unknown_user_witness :
  UpdatePassword "bob" "old" "new" (alice_store engine_ok)
  = Done (None, alice_store engine_ok).
Proof.
  apply UpdatePassword_unknown_user.
  - reflexivity.
  - apply int64_range_0.
  - reflexivity.
Defined.

(** ** The further properties on concrete stores *)

(** Registering the loader under "mem" and binding a new store to it. *)
Lemma SetStoreEngine_after_Register_witness :
  ∃ s',
    SetStoreEngine (Register "mem" (λ _, loader_two) ∅).2 keys_sorted
      "mem" "cfg" NewStore = Done s'
    ∧ allServers s' = {["srv1" := 1%Z; "srv2" := 1%Z]}
    ∧ config_seen (storeEngine s') = Some "cfg"
    ∧ closeCounter s' = 0%Z
    ∧ isClosed s' = false.
Proof.
  destruct (SetStoreEngine_after_Register (E:=loader)
              (∅ : gmap string (unit → loader)) (λ _, loader_two)
              keys_sorted "mem" "cfg" NewStore (lookup_empty _))
    as [(s' & Hrun & Hmaps & Hengine & _ & Hcounter & Hflag) _].
  exists s'. split; [exact Hrun|].
  split; [exact (f_equal snd Hmaps)|].
  split; [by rewrite Hengine|]. by rewrite Hcounter, Hflag.
Defined.

Lemma SetStoreEngine_seeds_AddServerChan_witness :
  ∃ s',
    SetStoreEngine {["mem" := λ _, loader_two]} keys_sorted "mem" "cfg" NewStore
    = Done s'
    ∧ NoDup (AddServerChan s')
    ∧ (∀ server,
         server ∈ AddServerChan s' ↔ is_Some (allServers s' !! server))
    ∧ length (AddServerChan s') ≤ server_chan_len (allServers s')
    ∧ 1024 ≤ server_chan_len (allServers s').
Proof.
  eexists. split; [reflexivity|].
  apply (SetStoreEngine_seeds_AddServerChan (E:=loader)
           {["mem" := λ _, loader_two]} keys_sorted "mem" "cfg" NewStore).
  reflexivity.
Defined.


Lemma AddUser_then_GetUser_witness :
  ∃ err1 s1,
    AddUser "bob" "pw2" (alice_store engine_down) = Done (err1, s1)
    ∧ Password <$> GetUser "bob" s1 = Some "pw2"
    ∧ GetUser "alice" s1 = GetUser "alice" (alice_store engine_down).
Proof.
  destruct (AddUser_then_GetUser "bob" "pw2" "pw3" (alice_store engine_down)
              ltac:(reflexivity) ltac:(reflexivity))
    as (err1 & s1 & Hrun & Hget & Hothers & _).
  exists err1, s1. split; [exact Hrun|]. split; [exact Hget|].
  apply Hothers. discriminate.
Defined.

Lemma UpdatePassword_incorrect_password_witness :
  UpdatePassword "alice" "guess" "new" (alice_store engine_ok)
  = Done (Some _ERROR_INCORRECT_PASSWORD, alice_store engine_ok).
Proof.
  eapply UpdatePassword_incorrect_password.
  - reflexivity.
  - apply int64_range_0.
  - reflexivity.
  - discriminate.
Defined.

Lemma UpdatePassword_then_GetUser_witness :
  ∃ err s1 u1,
    UpdatePassword "alice" "pw1" "pw9" (alice_store engine_down)
    = Done (err, s1)
    ∧ GetUser "alice" s1 = Some u1
    ∧ Password u1 = "pw9"
    ∧ MonitorServers u1 = {["srv1" := true]}.
Proof.
  destruct (UpdatePassword_then_GetUser "alice" "pw1" "pw9"
              {| Username := ""; Password := "pw1";
                 MonitorServers := {["srv1" := true]} |}
              (alice_store engine_down) ltac:(reflexivity) ltac:(reflexivity) ltac:(reflexivity))
    as (err & s1 & u1 & Hrun & Hget & Hpw & Hms & _); [discriminate|].
  exists err, s1, u1. split; [exact Hrun|]. split; [exact Hget|].
  split; [exact Hpw|exact Hms].
Defined.

Lemma AddMonitorServer_refusals_witness :
  AddMonitorServer "bob" "srv1" (alice_store engine_ok)
  = Done (Some (Errorf "User bob not exist"), alice_store engine_ok)
  ∧ AddMonitorServer "alice" "srv1" (alice_store engine_ok)
    = Done (Some (Errorf "srv1 is already in monitoring list"),
            alice_store engine_ok).
Proof.
  split.
  - apply (AddMonitorServer_refusals "bob" "srv1" (alice_store engine_ok)
             ltac:(reflexivity) int64_range_0).
    reflexivity.
  - eapply (AddMonitorServer_refusals "alice" "srv1" (alice_store engine_ok)
              ltac:(reflexivity) int64_range_0); reflexivity.
Defined.

Lemma DeleteMonitorServer_unknown_user_witness :
  DeleteMonitorServer "bob" "srv1" (alice_store engine_ok)
  = Done (Some (Errorf "user bob not exist"), alice_store engine_ok).
Proof.
  apply DeleteMonitorServer_unknown_user.
  - reflexivity.
  - apply int64_range_0.
  - reflexivity.
Defined.

Lemma GetMonitorResult_follows_subscription_witness :
  (∃ err s1,
     AddMonitorServer "alice" "srv1" (idle_store engine_ok) = Done (err, s1)
     ∧ GetMonitorResult "alice" "srv1" s1 = (None, None))
  ∧ (∃ err s1,
       DeleteMonitorServer "alice" "srv1" (alice_store engine_ok)
       = Done (err, s1)
       ∧ GetMonitorResult "alice" "srv1" s1
         = (None, Some (Errorf "You are not monitoring srv1"))).
Proof.
  split.
  - apply (GetMonitorResult_follows_subscription "alice" "srv1"
             (set_Password "pw1" newUser) (idle_store engine_ok)
             ltac:(reflexivity) ltac:(reflexivity)).
    reflexivity.
  - eapply (GetMonitorResult_follows_subscription "alice" "srv1" _
              (alice_store engine_ok) ltac:(reflexivity) ltac:(reflexivity)).
    reflexivity.
Defined.

Lemma AddMonitorServer_then_DeleteMonitorServer_witness :
  ∃ err1 s1 err2 s2,
    AddMonitorServer "alice" "srv1" (idle_store engine_ok) = Done (err1, s1)
    ∧ DeleteMonitorServer "alice" "srv1" s1 = Done (err2, s2)
    ∧ users s2 = users (idle_store engine_ok)
    ∧ allServers s2 = ∅
    ∧ AddServerChan s2 = ["srv1"]
    ∧ KickServerChan s2 = ["srv1"].
Proof.
  destruct (AddMonitorServer_then_DeleteMonitorServer "alice" "srv1"
              (set_Password "pw1" newUser) (idle_store engine_ok)
              ltac:(reflexivity) ltac:(reflexivity) ltac:(reflexivity))
    as (err1 & s1 & Hadd & err2 & s2 & Hdel & Hus & Hall & _ & Hadds & Hkicks).
  { intros c Hc. discriminate Hc. }
  exists err1, s1, err2, s2.
  split; [exact Hadd|]. split; [exact Hdel|]. split; [exact Hus|].
  split; [exact Hall|]. split; [exact Hadds|exact Hkicks].
Defined.

Lemma alice_store_consistent {E} (e : E) :
  refcount_consistent (alice_store e) ∧ entries_positive (alice_store e).
Proof.
  split.
  - intros server. unfold alice_store, count_of, monitor_count. simpl.
    rewrite map_filter_singleton. simpl.
    destruct (decide (server = "srv1")) as [->|Hne].
    + reflexivity.
    + rewrite lookup_singleton_ne by done. simpl.
      rewrite decide_False; [done|].
      unfold monitors. simpl. by rewrite lookup_singleton_ne.
  - intros server c. unfold alice_store. simpl.
    intros [_ <-]%lookup_singleton_Some. lia.
Qed.

Lemma idle_store_consistent {E} (e : E) :
  refcount_consistent (idle_store e) ∧ entries_positive (idle_store e).
Proof.
  split.
  - intros server. unfold idle_store, count_of, monitor_count. simpl.
    rewrite map_filter_singleton. simpl.
    rewrite decide_False; [done|].
    unfold monitors. simpl. by rewrite lookup_empty.
  - intros server c. unfold idle_store. simpl. by rewrite lookup_empty.
Qed.

Lemma entries_stay_positive_witness :
  ∃ s',
    run [Call_AddUser "bob" "pw2"; Call_AddMonitorServer "bob" "srv1";
         Call_DeleteMonitorServer "alice" "srv1";
         Call_DeleteMonitorServer "bob" "srv1"]
        (alice_store engine_ok) = Done s'
    ∧ entries_positive s'.
Proof.
  destruct (entries_stay_positive
              [Call_AddUser "bob" "pw2"; Call_AddMonitorServer "bob" "srv1";
               Call_DeleteMonitorServer "alice" "srv1";
               Call_DeleteMonitorServer "bob" "srv1"]
              (alice_store engine_ok)
              (proj1 (alice_store_consistent engine_ok))
              (proj2 (alice_store_consistent engine_ok)) ltac:(reflexivity))
    as (s' & Hrun & Hpos & _).
  exists s'. split; [exact Hrun|exact Hpos].
Defined.

Lemma AddMonitorServer_sends_on_first_monitor_witness :
  ∃ err s',
    AddMonitorServer "alice" "srv1" (idle_store engine_ok) = Done (err, s')
    ∧ AddServerChan s' = ["srv1"]
    ∧ KickServerChan s' = [].
Proof.
  destruct (AddMonitorServer_sends_on_first_monitor "alice" "srv1"
              (set_Password "pw1" newUser) (idle_store engine_ok) ltac:(reflexivity)
              (proj1 (idle_store_consistent engine_ok))
              (proj2 (idle_store_consistent engine_ok)) ltac:(reflexivity) ltac:(reflexivity))
    as (err & s' & Hrun & _ & Hadd & Hkick).
  exists err, s'. split; [exact Hrun|]. split; [exact Hadd|exact Hkick].
Defined.

Lemma DeleteMonitorServer_kicks_when_unmonitored_witness :
  ∃ err s',
    DeleteMonitorServer "alice" "srv1" (alice_store engine_ok) = Done (err, s')
    ∧ allServers s' !! "srv1" = None
    ∧ AddServerChan s' = ["srv1"].
Proof.
  destruct (DeleteMonitorServer_kicks_when_unmonitored "alice" "srv1"
              {| Username := ""; Password := "pw1";
                 MonitorServers := {["srv1" := true]} |}
              (alice_store engine_ok) ltac:(reflexivity)
              (proj1 (alice_store_consistent engine_ok)) ltac:(reflexivity) ltac:(reflexivity))
    as (err & s' & Hrun & Hkick & Hentry & Hadd).
  exists err, s'. split; [exact Hrun|]. split; [|exact Hadd].
  apply Hentry.
  assert (Done (err, s')
          = DeleteMonitorServer "alice" "srv1" (alice_store engine_ok))
    as Heq by (symmetry; exact Hrun).
  vm_compute in Heq. by inversion Heq.
Defined.

Lemma AppendPingRet_catches_up_witness :
  ∃ err s',
    AppendPingRet range_sorted "srv1" "us" {| Time := "t2"; Ping := "12" |}
      (sampled_store engine_ok) = Done (err, s')
    ∧ ∀ loc prs,
        server_locs s' "srv1" !! loc = Some prs →
        length prs ≤ length (location_prs s' "srv1" "us").
Proof.
  destruct (AppendPingRet_catches_up range_sorted "srv1" "us"
              {| Time := "t2"; Ping := "12" |} (sampled_store engine_ok)
              ltac:(reflexivity) ltac:(reflexivity))
    as (err & s' & Hrun & Hlongest & _).
  exists err, s'. split; [exact Hrun|exact Hlongest].
Defined.

Lemma AppendPingRet_lines_up_witness :
  ∃ err s',
    AppendPingRet range_sorted "srv1" "us" {| Time := "t1"; Ping := "12" |}
      (sampled_store engine_ok) = Done (err, s')
    ∧ location_prs s' "srv1" "us" !! 0 = Some {| Time := "t1"; Ping := "12" |}
    ∧ length (location_prs s' "srv1" "us") = 1.
Proof.
  destruct (AppendPingRet_lines_up range_sorted "srv1" "us"
              {| Time := "t1"; Ping := "12" |} (sampled_store engine_ok)
              "eu" [{| Time := "t1"; Ping := "10" |}]
              {| Time := "t1"; Ping := "10" |} ltac:(reflexivity) ltac:(reflexivity) ltac:(reflexivity) ltac:(reflexivity))
    as (err & s' & Hrun & Hat & Hlen & _).
  - discriminate.
  - intros loc prs Hloc Hprs. unfold sampled_store, server_locs in Hprs.
    simpl in Hprs. rewrite lookup_singleton_eq in Hprs. simpl in Hprs.
    rewrite lookup_singleton_ne in Hprs by done. discriminate.
  - exists err, s'. split; [exact Hrun|]. split; [exact Hat|exact Hlen].
Defined.

Lemma AppendPingRet_then_GetMonitorResult_witness :
  ∃ err s' locs prs,
    AppendPingRet range_sorted "srv1" "eu" {| Time := "t1"; Ping := "10" |}
      (alice_store engine_ok) = Done (err, s')
    ∧ GetMonitorResult "alice" "srv1" s' = (Some locs, None)
    ∧ locs !! "eu" = Some prs
    ∧ last prs = Some {| Time := "t1"; Ping := "10" |}.
Proof.
  eapply (AppendPingRet_then_GetMonitorResult range_sorted "alice" "srv1" "eu"
            {| Time := "t1"; Ping := "10" |} _ (alice_store engine_ok)).
  - reflexivity.
  - reflexivity.
  - reflexivity.
  - by eexists.
Defined.
